(** * TerraMindAI retrieval subsystem: a shallow embedding of
      [backend/rag_system.py] and the properties of its chunker, record
      normalizer, ingestion loop, filtered retrieval and snapshot loading.

    Conventions of the embedding.
    - A Python [str] is a [string]; one [ascii] stands for one code point
      (code points below 256, so the degree sign is the single character 176).
    - A Python [int] is a [Z]; a finite Python [float] is the rational [Q] it
      denotes, NaN is a value of its own.
    - A Python [dict] with string keys is a [gmap string _].
    - A call either returns, raises, or is still running when the iteration
      budget of the chunking loop is used up: see [outcome]. *)

From Stdlib Require Import ZArith QArith Qabs Ascii String List Sorted Lia.
From stdpp Require Import base option list gmap strings pretty.

Local Open Scope string_scope.
Local Open Scope list_scope.
Local Open Scope Z_scope.

(** ** Outcomes of a call *)

Inductive exn : Type :=
| ValueError (msg : string)
| TypeError (msg : string)
| AttributeError (msg : string)
| IndexError (msg : string)
| RuntimeError (msg : string)
| BackendError (msg : string).

Inductive outcome (A : Type) : Type :=
| Done (a : A)
| Raised (e : exn)
| Running.

Arguments Done {A} a.
Arguments Raised {A} e.
Arguments Running {A}.

#[global] Instance outcome_ret : MRet outcome := fun A a => Done a.

#[global] Instance outcome_bind : MBind outcome := fun A B f m =>
  match m with
  | Done a => f a
  | Raised e => Raised e
  | Running => Running
  end.

(** ** Python strings *)

Module PyStr.

Definition chars (s : string) : list ascii := list_ascii_of_string s.
Definition str (l : list ascii) : string := string_of_list_ascii l.

(** [len(s)] *)
Definition len (s : string) : Z := Z.of_nat (String.length s).

(** Index normalisation of a slice bound: a negative bound counts from the
    end, and every bound is clamped to [0 .. n]. *)
Definition clamp (n i : Z) : Z :=
  if i <? 0 then Z.max (i + n) 0 else Z.min i n.

(** [s[a:b]] *)
Definition slice (s : string) (a b : Z) : string :=
  let n := len s in
  let lo := clamp n a in
  let hi := clamp n b in
  str (take (Z.to_nat (hi - lo)) (drop (Z.to_nat lo) (chars s))).

(** [s.rfind(c)] for a one-character needle: the highest index holding [c],
    or -1. *)
Fixpoint rfind_go (c : ascii) (l : list ascii) (i : Z) (last : Z) : Z :=
  match l with
  | [] => last
  | x :: l' => rfind_go c l' (i + 1) (if Ascii.eqb x c then i else last)
  end.

Definition rfind (s : string) (c : ascii) : Z := rfind_go c (chars s) 0 (-1).

(** [c.isspace()] on code points below 256: TAB..CR, FS..US, space, NEL and
    the no-break space. *)
Definition isspace (c : ascii) : bool :=
  let n := N_of_ascii c in
  ((9 <=? n) && (n <=? 13) || (28 <=? n) && (n <=? 32)
   || (n =? 133) || (n =? 160))%N.

Fixpoint lstrip_chars (l : list ascii) : list ascii :=
  match l with
  | [] => []
  | c :: l' => if isspace c then lstrip_chars l' else l
  end.

Definition rstrip_chars (l : list ascii) : list ascii :=
  rev (lstrip_chars (rev l)).

(** [s.strip()] *)
Definition strip (s : string) : string :=
  str (rstrip_chars (lstrip_chars (chars s))).

(** [c.lower()] on code points below 256. *)
Definition lower_char (c : ascii) : ascii :=
  let n := N_of_ascii c in
  if ((65 <=? n) && (n <=? 90) || (192 <=? n) && (n <=? 214)
      || (216 <=? n) && (n <=? 222))%N
  then ascii_of_N (n + 32) else c.

(** [s.lower()] *)
Definition lower (s : string) : string := str (map lower_char (chars s)).

(** [s.replace(c, r)] for a one-character pattern [c]. *)
Definition replace (c : ascii) (r : string) (s : string) : string :=
  str (concat (map (fun x => if Ascii.eqb x c then chars r else [x]) (chars s))).

(** [s.split()]: maximal runs of non-whitespace characters. *)
Fixpoint split_go (cur : list ascii) (l : list ascii) : list string :=
  match l with
  | [] => match cur with [] => [] | _ => [str (rev cur)] end
  | c :: l' =>
      if isspace c
      then match cur with
           | [] => split_go [] l'
           | _ => str (rev cur) :: split_go [] l'
           end
      else split_go (c :: cur) l'
  end.

Definition split (s : string) : list string := split_go [] (chars s).

(** [sep.join(parts)] *)
Fixpoint join (sep : string) (parts : list string) : string :=
  match parts with
  | [] => ""
  | [p] => p
  | p :: ps => p +:+ sep +:+ join sep ps
  end.

(** [needle in s] *)
Fixpoint prefix_chars (p l : list ascii) : bool :=
  match p, l with
  | [], _ => true
  | _ :: _, [] => false
  | a :: p', b :: l' => Ascii.eqb a b && prefix_chars p' l'
  end.

Fixpoint contains_chars (p l : list ascii) : bool :=
  prefix_chars p l ||
  match l with
  | [] => false
  | _ :: l' => contains_chars p l'
  end.

Definition contains (needle s : string) : bool :=
  contains_chars (chars needle) (chars s).

(** [s.endswith(suffix)] *)
Definition endswith (s suffix : string) : bool :=
  prefix_chars (rev (chars suffix)) (rev (chars s)).

(** No whitespace at either end. *)
Definition stripped (s : string) : Prop :=
  match chars s with
  | [] => True
  | c :: _ => isspace c = false
  end /\
  match rev (chars s) with
  | [] => True
  | c :: _ => isspace c = false
  end.

End PyStr.

(** Characters the source names that a string literal cannot hold directly. *)
Definition newline : ascii := ascii_of_N 10.
Definition dquote : ascii := ascii_of_N 34.
Definition degree : string := String (ascii_of_N 176) "".

(** ** The chunker: [RAGSystem._chunk_text] *)

(** One pass through the body of the [while] loop at offset [start]: the
    chunk appended to [chunks] and the next value of [start].  The test
    [break_point > chunk_size * 0.5] compares an integer with the exact half
    of an integer, that is [chunk_size < 2 * break_point]. *)
Definition chunk_body (text : string) (chunk_size chunk_overlap start : Z)
  : string * Z :=
  let end_ := start + chunk_size in
  let chunk := PyStr.slice text start end_ in
  let '(chunk, end_) :=
    if end_ <? PyStr.len text then
      let last_period := PyStr.rfind chunk "."%char in
      let last_newline := PyStr.rfind chunk newline in
      let break_point := Z.max last_period last_newline in
      if chunk_size <? 2 * break_point
      then (PyStr.slice chunk 0 (break_point + 1), start + break_point + 1)
      else (chunk, end_)
    else (chunk, end_) in
  (PyStr.strip chunk, end_ - chunk_overlap).

(** The [while start < len(text)] loop, with a budget of iterations. *)
Fixpoint chunk_loop (fuel : nat) (text : string)
    (chunk_size chunk_overlap start : Z) (chunks : list string)
  : outcome (list string) :=
  if start <? PyStr.len text then
    match fuel with
    | O => Running
    | S fuel' =>
        let '(chunk, start') := chunk_body text chunk_size chunk_overlap start in
        chunk_loop fuel' text chunk_size chunk_overlap start' (chunks ++ [chunk])
    end
  else Done chunks.

Definition _chunk_text (fuel : nat) (text : string)
    (chunk_size chunk_overlap : Z) : outcome (list string) :=
  chunk_loop fuel text chunk_size chunk_overlap 0 [].

(** ** Values held by records and metadata *)

(** The scalars a parsed record can hold: [None], an [int], a finite [float],
    NaN, or a [str]. *)
Inductive value : Type :=
| VNone
| VInt (z : Z)
| VFloat (q : Q)
| VNaN
| VStr (s : string).

(** Truth value of an object in a condition. *)
Definition truthy (v : value) : bool :=
  match v with
  | VNone => false
  | VInt z => negb (z =? 0)
  | VFloat q => negb (Qeq_bool q 0)
  | VNaN => true
  | VStr s => negb (String.eqb s "")
  end.

(** [a == b] *)
Definition py_eq (a b : value) : bool :=
  match a, b with
  | VNone, VNone => true
  | VInt x, VInt y => x =? y
  | VInt x, VFloat q | VFloat q, VInt x => Qeq_bool (inject_Z x) q
  | VFloat p, VFloat q => Qeq_bool p q
  | VStr s, VStr t => String.eqb s t
  | _, _ => false
  end.

(** [str(v) == 'nan']: the text of [None], of an [int] and of a finite
    [float] is never [nan]. *)
Definition str_is_nan (v : value) : bool :=
  match v with
  | VNaN => true
  | VStr s => String.eqb s "nan"
  | _ => false
  end.

Definition is_none (v : value) : bool :=
  match v with VNone => true | _ => false end.

(** Nearest integer, ties to the even one. *)
Definition round_half_even (q : Q) : Z :=
  let n := Qnum q in
  let d := Z.pos (Qden q) in
  let f := n / d in
  let r := n mod d in
  if 2 * r <? d then f
  else if d <? 2 * r then f + 1
  else if Z.even f then f else f + 1.

(** [f"{x:.2f}"] for a finite float [x]: the exact value rounded to two
    decimals, ties to even, with the sign of [x]. *)
Definition format_2f (q : Q) : string :=
  let c := round_half_even (Qabs q * 100) in
  (if Qnum q <? 0 then "-" else "")
  +:+ pretty (c / 100) +:+ "." +:+ pretty (c mod 100 / 10) +:+ pretty (c mod 10).

(** [f"{v:.2f}"]: defined for numbers, a [ValueError] for a string, a
    [TypeError] for [None]. *)
Definition fmt_2f (v : value) : outcome string :=
  match v with
  | VInt z => Done (format_2f (inject_Z z))
  | VFloat q => Done (format_2f q)
  | VNaN => Done "nan"
  | VStr _ => Raised (ValueError "Unknown format code 'f' for object of type 'str'")
  | VNone => Raised (TypeError "unsupported format string passed to NoneType.__format__")
  end.

(** [sep.join(parts)] on a list of objects: a [TypeError] unless every item
    is a [str]. *)
Fixpoint strs_of (parts : list value) : option (list string) :=
  match parts with
  | [] => Some []
  | VStr s :: parts' => cons s <$> strs_of parts'
  | _ :: _ => None
  end.

Definition py_join (sep : string) (parts : list value) : outcome value :=
  match strs_of parts with
  | Some l => Done (VStr (PyStr.join sep l))
  | None => Raised (TypeError "sequence item: expected str instance")
  end.

(** [key in record] and [record.get(key, default)] *)
Definition has_key (record : gmap string value) (key : string) : bool :=
  bool_decide (is_Some (record !! key)).

Definition get (record : gmap string value) (key : string) (dflt : value) : value :=
  default dflt (record !! key).

(** Truth value of an optional string argument ([None] and [''] are false). *)
Definition opt_truthy (o : option string) : bool :=
  match o with
  | Some s => negb (String.eqb s "")
  | None => false
  end.

(** The slug of a lesson or country value:
    [.lower().replace(' ', '_').replace(',', '').replace("'", '')]. *)
Definition slug (s : string) : string :=
  PyStr.replace "'"%char ""
    (PyStr.replace ","%char "" (PyStr.replace " "%char "_" (PyStr.lower s))).

(** The slug of a headline: the first three words joined by [_], commas,
    apostrophes and double quotes removed, hyphens turned into [_], cut to
    50 characters. *)
Definition headline_slug (headline : string) : string :=
  let words := take 3 (PyStr.split (PyStr.lower headline)) in
  PyStr.slice
    (PyStr.replace "-"%char "_"
       (PyStr.replace dquote ""
          (PyStr.replace "'"%char ""
             (PyStr.replace ","%char "" (PyStr.join "_" words)))))
    0 50.

Section Normalizer.

(** [str(x)] of a finite float [x] (the shortest decimal text that reads back
    as [x]) is computed by the Python runtime and taken as given. *)
Variable float_repr : Q -> string.

(** [str(v)] *)
Definition py_str (v : value) : string :=
  match v with
  | VNone => "None"
  | VInt z => pretty z
  | VFloat q => float_repr q
  | VNaN => "nan"
  | VStr s => s
  end.

(** [if key in record: temp = record.get(key); if temp is not None and
    str(temp) != 'nan': text_parts.append(f"<label>: {temp:.2f}°C.")] *)
Definition add_temperature (record : gmap string value) (key label : string)
    (text_parts : list value) : outcome (list value) :=
  if has_key record key then
    let temp := get record key VNone in
    if negb (is_none temp) && negb (str_is_nan temp) then
      t ← fmt_2f temp;
      Done (text_parts ++ [VStr (label +:+ ": " +:+ t +:+ degree +:+ "C.")])
    else Done text_parts
  else Done text_parts.

(** [RAGSystem._create_text_from_csv_record] *)
Definition _create_text_from_csv_record (record : gmap string value)
    (text_column : string) : outcome value :=
  if has_key record "text" then Done (get record "text" (VStr ""))
  else if has_key record "Headline" || has_key record "Content" then
    let headline := get record "Headline" (VStr "") in
    let content := get record "Content" (VStr "") in
    let sentiment := get record "Sentiment" (VStr "") in
    let justification := get record "Justification" (VStr "") in
    let text_parts : list value := [] in
    let text_parts :=
      if truthy headline
      then text_parts ++ [VStr ("Climate news headline: " +:+ py_str headline)]
      else text_parts in
    let text_parts :=
      if truthy content then text_parts ++ [content]
      else if truthy headline then text_parts ++ [headline]
      else text_parts in
    let text_parts :=
      if truthy sentiment
      then text_parts ++ [VStr ("Sentiment analysis: " +:+ py_str sentiment)]
      else text_parts in
    let text_parts :=
      if truthy justification
      then text_parts ++ [VStr ("Context: " +:+ py_str justification)]
      else text_parts in
    match text_parts with
    | [] => Done (VStr "")
    | _ => py_join " " text_parts
    end
  else
    let text_parts : list value := [] in
    let text_parts :=
      if has_key record "Country"
      then text_parts
           ++ [VStr ("Climate data for " +:+ py_str (get record "Country" VNone) +:+ ":")]
      else text_parts in
    text_parts ← add_temperature record "AverageTemperature"
                   "Average temperature" text_parts;
    let text_parts :=
      if has_key record "dt" && truthy (get record "dt" VNone)
      then text_parts ++ [VStr ("Date: " +:+ py_str (get record "dt" VNone) +:+ ".")]
      else text_parts in
    text_parts ← add_temperature record "AverageTemperatureUncertainty"
                   "Temperature uncertainty" text_parts;
    text_parts ← add_temperature record "LandAverageTemperature"
                   "Global land average temperature" text_parts;
    text_parts ← add_temperature record "LandAndOceanAverageTemperature"
                   "Global land and ocean average temperature" text_parts;
    if negb (String.eqb text_column "") && has_key record text_column
       && truthy (get record text_column VNone)
    then Done (VStr (py_str (get record text_column VNone)))
    else
      match text_parts with
      | [] => Done (VStr "")
      | _ => py_join " " text_parts
      end.

(** The text of one record, lines 179-194 of [load_from_dataset]: for a
    [.csv] path the text column when it holds text, else the synthesized
    description; for the other formats [record.get(text_column, "")]. *)
Definition record_text (is_csv : bool) (text_column : string)
    (record : gmap string value) : outcome value :=
  if is_csv then
    if has_key record text_column then
      let text_value := get record text_column VNone in
      if negb (is_none text_value) && negb (str_is_nan text_value)
         && negb (String.eqb (PyStr.strip (py_str text_value)) "")
      then Done (VStr (PyStr.strip (py_str text_value)))
      else _create_text_from_csv_record record text_column
    else _create_text_from_csv_record record text_column
  else Done (get record text_column (VStr "")).

(** [if not text or text.strip() == "" or text == "nan": continue]: [None]
    when the record is skipped, the text to chunk otherwise.  A true object
    that is not a string has no [strip]. *)
Definition text_to_chunk (text : value) : outcome (option string) :=
  if negb (truthy text) then Done None
  else
    match text with
    | VStr s =>
        if String.eqb (PyStr.strip s) "" || String.eqb s "nan"
        then Done None else Done (Some s)
    | _ => Raised (AttributeError "object has no attribute 'strip'")
    end.

(** The metadata of a chunk of [record], lines 206-255 of
    [load_from_dataset].  The closing loop copies every field of the record
    but the text column over what was set before: the record's fields win. *)
Definition make_meta (text_column : string)
    (lesson_id_column person_id_column dataset_name : option string)
    (record : gmap string value) : gmap string value :=
  let dn := default "" dataset_name in
  let prefixed := opt_truthy dataset_name && negb (String.eqb dn "default") in
  let meta : gmap string value := ∅ in
  let meta :=
    if opt_truthy dataset_name
    then <["dataset_name" := VStr dn]> meta
    else <["dataset_name" := VStr "default"]> meta in
  let lcol := default "" lesson_id_column in
  let meta :=
    if opt_truthy lesson_id_column && has_key record lcol then
      let lesson_value := py_str (get record lcol VNone) in
      let lesson_clean := slug lesson_value in
      let meta :=
        if prefixed
        then <["lesson_id" := VStr (dn +:+ "_" +:+ lesson_clean)]> meta
        else <["lesson_id" := VStr lesson_clean]> meta in
      <[lcol := VStr lesson_value]> meta
    else if has_key record "Country" then
      let country := py_str (get record "Country" VNone) in
      let country_clean := slug country in
      let meta :=
        if prefixed
        then <["lesson_id" := VStr (dn +:+ "_" +:+ country_clean)]> meta
        else <["lesson_id" := VStr ("climate_" +:+ country_clean)]> meta in
      <["country" := VStr country]> meta
    else if has_key record "dt" then
      <["lesson_id" :=
          VStr ("global_temp_" +:+ py_str (get record "dt" (VStr "unknown")))]> meta
    else if has_key record "Headline" then
      let headline := py_str (get record "Headline" (VStr "")) in
      let headline_clean := headline_slug headline in
      if prefixed
      then <["lesson_id" := VStr (dn +:+ "_" +:+ headline_clean)]> meta
      else <["lesson_id" := VStr ("headline_" +:+ headline_clean)]> meta
    else meta in
  let pcol := default "" person_id_column in
  let meta :=
    if opt_truthy person_id_column && has_key record pcol
    then <["person_id" := get record pcol VNone]> meta
    else <["person_id" := VStr "student_1"]> meta in
  delete text_column record ∪ meta.

(** [for chunk in chunks: documents.append(chunk); ...;
    metadata_list.append(meta)] *)
Definition append_chunks (meta : gmap string value) (chunks : list string)
    (acc : list string * list (gmap string value))
  : list string * list (gmap string value) :=
  foldl (fun '(documents, metadata_list) chunk =>
           (documents ++ [chunk], metadata_list ++ [meta])) acc chunks.

(** The loop over the records, lines 174-257 of [load_from_dataset]. *)
Fixpoint build_documents (fuel : nat) (is_csv : bool) (text_column : string)
    (lesson_id_column person_id_column : option string)
    (chunk_size chunk_overlap : Z) (dataset_name : option string)
    (dataset : list (gmap string value))
    (acc : list string * list (gmap string value))
  : outcome (list string * list (gmap string value)) :=
  match dataset with
  | [] => Done acc
  | record :: dataset' =>
      text ← record_text is_csv text_column record;
      to_chunk ← text_to_chunk text;
      match to_chunk with
      | None =>
          build_documents fuel is_csv text_column lesson_id_column
            person_id_column chunk_size chunk_overlap dataset_name dataset' acc
      | Some text =>
          chunks ← _chunk_text fuel text chunk_size chunk_overlap;
          let meta := make_meta text_column lesson_id_column person_id_column
                        dataset_name record in
          build_documents fuel is_csv text_column lesson_id_column
            person_id_column chunk_size chunk_overlap dataset_name dataset'
            (append_chunks meta chunks acc)
      end
  end.

End Normalizer.

(** ** The vector index *)

(** Modelled from the spec: the vector index is FAISS [IndexFlatL2], a
    library outside the repository.  Section 4.4: [add] appends the vectors
    in order, [search] returns up to [k] nearest neighbours by ascending
    squared Euclidean distance, ties broken by insertion order, and [size]
    is the vector count.  [add] rejects a batch that is not an [n] by [d]
    array with [n >= 1] rows. *)
Record faiss_index : Type := { d : Z; xb : list (list Q) }.

Definition IndexFlatL2 (dim : Z) : faiss_index := {| d := dim; xb := [] |}.

Definition ntotal (ix : faiss_index) : nat := length (xb ix).

Definition index_add (ix : faiss_index) (x : list (list Q)) : outcome faiss_index :=
  match x with
  | [] => Raised (ValueError "not enough values to unpack (expected 2, got 1)")
  | _ :: _ =>
      if forallb (fun v => Z.of_nat (length v) =? d ix) x
      then Done {| d := d ix; xb := xb ix ++ x |}
      else Raised (BackendError "assert d == self.d")
  end.

Fixpoint l2sq (a b : list Q) : Q :=
  match a, b with
  | x :: a', y :: b' => ((x - y) * (x - y) + l2sq a' b')%Q
  | _, _ => 0%Q
  end.

(** Stable insertion sort of (distance, position) pairs by distance. *)
Fixpoint insert_by_distance (c : Q * nat) (l : list (Q * nat)) : list (Q * nat) :=
  match l with
  | [] => [c]
  | c' :: l' =>
      if Qle_bool (fst c) (fst c') then c :: l
      else c' :: insert_by_distance c l'
  end.

Definition sort_by_distance (l : list (Q * nat)) : list (Q * nat) :=
  foldr insert_by_distance [] l.

Definition index_search (ix : faiss_index) (query : list Q) (k : Z)
  : list (Q * nat) :=
  take (Z.to_nat k)
    (sort_by_distance (imap (fun i v => (l2sq query v, i)) (xb ix))).

(** ** The retrieval store: [RAGSystem] *)

Record RAGSystem : Type := {
  embedding_model_name : string;
  dimension : Z;
  index : faiss_index;
  documents : list string;
  metadata : list (gmap string value)
}.

(** The two persisted artifacts: the index file is a [faiss_index], the data
    file is the pickled dictionary below ([embedding_model] may be absent). *)
Record snapshot_data : Type := {
  sd_documents : list string;
  sd_metadata : list (gmap string value);
  sd_dimension : Z;
  sd_embedding_model : option string
}.

(** One retrieved entry: [(document_text, metadata, distance_score)]. *)
Definition hit : Type := string * gmap string value * Q.

(** The filters of [retrieve], lines 488-496. *)
Definition passes_filters (meta : gmap string value)
    (dataset_name lesson_id person_id : option string)
    (filter_metadata : option (gmap string value)) : bool :=
  if opt_truthy dataset_name
     && negb (py_eq (get meta "dataset_name" VNone) (VStr (default "" dataset_name)))
  then false
  else if opt_truthy lesson_id
          && negb (py_eq (get meta "lesson_id" VNone) (VStr (default "" lesson_id)))
  then false
  else if opt_truthy person_id
          && negb (py_eq (get meta "person_id" VNone) (VStr (default "" person_id)))
  then false
  else
    match filter_metadata with
    | Some fm =>
        if bool_decide (fm = ∅) then true
        else forallb (fun '(key, v) => py_eq (get meta key VNone) v) (map_to_list fm)
    | None => true
    end.

(** [search_k], lines 476-477 of [retrieve]. *)
Definition search_k (k : Z) (dataset_name lesson_id person_id : option string)
    (n_documents : nat) : Z :=
  let search_k :=
    if opt_truthy dataset_name || opt_truthy lesson_id || opt_truthy person_id
    then k * 3 else k in
  Z.min search_k (Z.of_nat n_documents).

(** The loop over the candidates, lines 481-502 of [retrieve]. *)
Fixpoint retrieve_loop (s : RAGSystem) (k : Z)
    (dataset_name lesson_id person_id : option string)
    (filter_metadata : option (gmap string value))
    (candidates : list (Q * nat)) (results : list hit) : outcome (list hit) :=
  match candidates with
  | [] => Done results
  | (distance, idx) :: candidates' =>
      match documents s !! idx, metadata s !! idx with
      | Some doc, Some meta =>
          if passes_filters meta dataset_name lesson_id person_id filter_metadata
          then
            let results := results ++ [(doc, meta, distance)] in
            if k <=? Z.of_nat (length results) then Done results
            else retrieve_loop s k dataset_name lesson_id person_id
                   filter_metadata candidates' results
          else retrieve_loop s k dataset_name lesson_id person_id
                 filter_metadata candidates' results
      | _, _ => Raised (IndexError "list index out of range")
      end
  end.

(** [RAGSystem.load_index]: [index_file] and [data] are the contents of the
    two artifacts.  The fields are assigned before the embedder is rebuilt,
    so the state is returned together with the outcome. *)
Definition load_index (sentence_transformers_available : bool)
    (index_file : faiss_index) (data : snapshot_data) (s : RAGSystem)
  : RAGSystem * outcome unit :=
  let s := {| embedding_model_name :=
                default "sentence-transformers/all-MiniLM-L6-v2"
                  (sd_embedding_model data);
              dimension := sd_dimension data;
              index := index_file;
              documents := sd_documents data;
              metadata := sd_metadata data |} in
  if sentence_transformers_available then (s, Done tt)
  else (s, Raised (RuntimeError "sentence-transformers not available. Install with: pip install sentence-transformers")).

Section Store.

Variable float_repr : Q -> string.

(** [SentenceTransformer(model).encode(text)]: the embedding model, taken as
    given. *)
Variable encode : string -> string -> list Q.

(** [RAGSystem.__init__]; [dim] is the dimension the model reports. *)
Definition init (embedding_model : string) (dim : Z) : RAGSystem :=
  {| embedding_model_name := embedding_model;
     dimension := dim;
     index := IndexFlatL2 dim;
     documents := [];
     metadata := [] |}.

Definition _embed_text (s : RAGSystem) (text : string) : list Q :=
  encode (embedding_model_name s) text.

(** [RAGSystem.add_documents].  Nothing is assigned before the last call
    that can raise, so a raising call leaves the store as it was. *)
Definition add_documents (s : RAGSystem) (docs : list string)
    (meta : option (list (gmap string value))) : outcome RAGSystem :=
  let meta :=
    match meta with
    | None => replicate (length docs) (∅ : gmap string value)
    | Some meta => meta
    end in
  if negb (length docs =? length meta)%nat
  then Raised (ValueError "Documents and metadata must have the same length")
  else
    let embeddings := map (_embed_text s) docs in
    ix ← index_add (index s) embeddings;
    Done {| embedding_model_name := embedding_model_name s;
            dimension := dimension s;
            index := ix;
            documents := documents s ++ docs;
            metadata := metadata s ++ meta |}.

(** [RAGSystem.load_from_dataset].  Lines 135-172 read and parse the file;
    [dataset] is the list of records they produce. *)
Definition load_from_dataset (fuel : nat) (s : RAGSystem)
    (dataset_path : string) (dataset : list (gmap string value))
    (text_column : string) (lesson_id_column person_id_column : option string)
    (chunk_size chunk_overlap : Z) (dataset_name : option string)
  : outcome RAGSystem :=
  if PyStr.endswith dataset_path ".json" || PyStr.endswith dataset_path ".jsonl"
     || PyStr.endswith dataset_path ".csv"
  then
    '(docs, metadata_list) ←
      build_documents float_repr fuel (PyStr.endswith dataset_path ".csv")
        text_column lesson_id_column person_id_column chunk_size chunk_overlap
        dataset_name dataset ([], []);
    add_documents s docs (Some metadata_list)
  else Raised (ValueError ("Unsupported file format: " +:+ dataset_path)).

(** [RAGSystem.retrieve] *)
Definition retrieve (s : RAGSystem) (query : string) (k : Z)
    (lesson_id person_id : option string)
    (filter_metadata : option (gmap string value))
    (dataset_name : option string) : outcome (list hit) :=
  if (length (documents s) =? 0)%nat then Done []
  else
    let query_embedding := _embed_text s query in
    let search_k :=
      search_k k dataset_name lesson_id person_id (length (documents s)) in
    let candidates := index_search (index s) query_embedding search_k in
    retrieve_loop s k dataset_name lesson_id person_id filter_metadata
      candidates [].


(** An ingestion call, and a run of such calls: a call that raises, or whose
    chunking loop is still running when the budget is spent, leaves the
    store as it was. *)
Inductive ingestion : Type :=
| AddDocuments (docs : list string) (meta : option (list (gmap string value)))
| LoadFromDataset (dataset_path : string) (dataset : list (gmap string value))
    (text_column : string) (lesson_id_column person_id_column : option string)
    (chunk_size chunk_overlap : Z) (dataset_name : option string).

Definition ingest (fuel : nat) (s : RAGSystem) (c : ingestion) : outcome RAGSystem :=
  match c with
  | AddDocuments docs meta => add_documents s docs meta
  | LoadFromDataset path dataset tc lc pc cs co dn =>
      load_from_dataset fuel s path dataset tc lc pc cs co dn
  end.

Definition ingest_all (fuel : nat) (s : RAGSystem) (calls : list ingestion)
  : RAGSystem :=
  foldl (fun s c => match ingest fuel s c with Done s' => s' | _ => s end)
    s calls.

End Store.

(** ** The trend narrative of [RAGSystem._process_climate_csv] *)

(** Lines 313-317.  [temp_change] is the float [late_avg - early_avg] the
    code computes, [country] the text of the country, [first_year] and
    [last_year] the [strftime('%Y')] of the first and last dates. *)
Definition trend_text (country : string) (temp_change early_avg late_avg : Q)
    (first_year last_year : string) : string :=
  if negb (Qle_bool (1 # 2) (Qabs temp_change)) then
    "Temperature trend analysis for " +:+ country
    +:+ ": Temperatures have remained relatively stable, with an average change of "
    +:+ format_2f temp_change +:+ degree
    +:+ "C between the early period (average " +:+ format_2f early_avg +:+ degree
    +:+ "C) and late period (average " +:+ format_2f late_avg +:+ degree +:+ "C)."
  else
    let direction :=
      if negb (Qle_bool temp_change 0) then "increased" else "decreased" in
    "Temperature trend analysis for " +:+ country
    +:+ ": Temperatures have " +:+ direction +:+ " by "
    +:+ format_2f (Qabs temp_change) +:+ degree
    +:+ "C over the recorded period, from an early average of "
    +:+ format_2f early_avg +:+ degree +:+ "C to a later average of "
    +:+ format_2f late_avg +:+ degree +:+ "C. This change occurred between "
    +:+ first_year +:+ " and " +:+ last_year +:+ ".".

(** A one-dimensional embedder and a rendering of floats for the closed
    examples below: the embedding of a text is its length, and a float is
    shown as a fraction (no example passes a float to [str]). *)
Definition length_encoder (model text : string) : list Q :=
  [inject_Z (PyStr.len text)].

Definition fraction_repr (q : Q) : string :=
  pretty (Qnum q) +:+ "/" +:+ pretty (Z.pos (Qden q)).

Definition spaces (n : nat) : string := PyStr.str (replicate n " "%char).

Definition france : gmap string value :=
  {[ "Country" := VStr "France"; "AverageTemperature" := VFloat (25 # 2) ]}.

Definition germany : gmap string value :=
  {[ "Country" := VStr "Germany"; "AverageTemperature" := VFloat 9 ]}.

(** A text with a full stop just after the middle of its first window of
    ten characters. *)
Definition stalling_text : string := "aaaaaa.aaaaaaaaaaaaaaa".

(** ** Predicates of the statements *)

(** The characters [_chunk_text] breaks after. *)
Definition terminator (c : ascii) : Prop := c = "."%char \/ c = newline.

(** Position [i] holds the last terminator of the window [w]. *)
Definition last_terminator_at (w : string) (i : Z) : Prop :=
  0 <= i
  /\ (exists c, PyStr.chars w !! Z.to_nat i = Some c /\ terminator c)
  /\ forall (j : nat) (c : ascii),
       i < Z.of_nat j -> PyStr.chars w !! j = Some c -> ~ terminator c.

(** The narrative for [country] describes the temperatures with [phrase]. *)
Definition trend_phrased (text country phrase : string) : Prop :=
  exists rest,
    text = "Temperature trend analysis for " +:+ country
           +:+ ": Temperatures have " +:+ phrase +:+ rest.

(** A store of three documents embedded by [length_encoder], as
    [add_documents] builds it from an empty store. *)
Definition meta_country (c : string) : gmap string value :=
  {[ "country" := VStr c ]}.

Definition three_docs_store : RAGSystem :=
  {| embedding_model_name := "model";
     dimension := 1;
     index := {| d := 1; xb := [[1%Q]; [2%Q]; [3%Q]] |};
     documents := ["a"; "bb"; "ccc"];
     metadata := [meta_country "France"; meta_country "Germany";
                  meta_country "Germany"] |}.


(** The store entry a candidate of the index search points at. *)
Definition entry (s : RAGSystem) (c : Q * nat) : option hit :=
  match documents s !! snd c, metadata s !! snd c with
  | Some doc, Some meta => Some (doc, meta, fst c)
  | _, _ => None
  end.

(** The candidates that pass the filters, in the order of the candidates. *)
Definition survivors (s : RAGSystem)
    (dataset_name lesson_id person_id : option string)
    (filter_metadata : option (gmap string value))
    (candidates : list (Q * nat)) : list hit :=
  List.filter
    (fun h : hit =>
       passes_filters (snd (fst h)) dataset_name lesson_id person_id
         filter_metadata)
    (omap (entry s) candidates).

(** A metadata record satisfies the active filters: each of the three named
    filters that is given and not empty is the record's value for its key,
    and every pair of [filter_metadata] equals the record's value. *)
Definition satisfies_filters (meta : gmap string value)
    (dataset_name lesson_id person_id : option string)
    (filter_metadata : option (gmap string value)) : Prop :=
  (forall v, dataset_name = Some v -> v <> "" ->
             meta !! "dataset_name" = Some (VStr v))
  /\ (forall v, lesson_id = Some v -> v <> "" ->
                meta !! "lesson_id" = Some (VStr v))
  /\ (forall v, person_id = Some v -> v <> "" ->
                meta !! "person_id" = Some (VStr v))
  /\ (forall fm key v, filter_metadata = Some fm -> fm !! key = Some v ->
                       py_eq (get meta key VNone) v = true).

Definition closer (a b : Q * nat) : Prop := (fst a <= fst b)%Q.
Definition nearer (a b : hit) : Prop := (snd a <= snd b)%Q.





(** A record whose text is one letter, a thousand spaces and one letter. *)
Definition padded_record : gmap string value :=
  {[ "text" := VStr ("a" +:+ spaces 1000 +:+ "b") ]}.

(** [c] occurs in [text] as a run of consecutive characters. *)
Definition substring_of (c text : string) : Prop :=
  exists pre suf, PyStr.chars text = pre ++ PyStr.chars c ++ suf.

(** The [i]-th window of a text cut with a fixed stride: the characters from
    [i * (chunk_size - chunk_overlap)], [chunk_size] of them, stripped. *)
Definition strided_window (text : string) (chunk_size chunk_overlap : Z)
    (i : nat) : string :=
  PyStr.strip
    (PyStr.slice text (Z.of_nat i * (chunk_size - chunk_overlap))
       (Z.of_nat i * (chunk_size - chunk_overlap) + chunk_size)).

(** ** Saving, construction and the callers of the store *)

(** [RAGSystem.save_index]: what is written to the index file and to the
    data file. *)
Definition save_index (s : RAGSystem) : faiss_index * snapshot_data :=
  (index s,
   {| sd_documents := documents s;
      sd_metadata := metadata s;
      sd_dimension := dimension s;
      sd_embedding_model := Some (embedding_model_name s) |}).

(** The separator of the joined context: a blank line. *)
Definition blank_line : string := String newline (String newline "").

(** The document text of a retrieved entry. *)
Definition hit_doc (h : hit) : string := fst (fst h).

Section Callers.

(** [SentenceTransformer(model).get_sentence_embedding_dimension()] and
    [encode], taken as given. *)
Variable model_dimension : string -> Z.
Variable encode : string -> string -> list Q.
Variable float_repr : Q -> string.

(** [RAGSystem.__init__], with the two availability flags of the module. *)
Definition RAGSystem__init__ (sentence_transformers_available faiss_available : bool)
    (embedding_model : string) (dimension : Z) : outcome RAGSystem :=
  if negb sentence_transformers_available
  then Raised (RuntimeError "sentence-transformers not available. Install with: pip install sentence-transformers")
  else if negb faiss_available
  then Raised (RuntimeError "FAISS not available. Install with: pip install faiss-cpu")
  else Done (init embedding_model (model_dimension embedding_model)).

(** [get_rag_system]: the store returned and the new value of the global
    [_rag_system]. *)
Definition get_rag_system (sentence_transformers_available faiss_available : bool)
    (_rag_system : option RAGSystem) (embedding_model : string)
  : outcome (RAGSystem * option RAGSystem) :=
  match _rag_system with
  | None =>
      s ← RAGSystem__init__ sentence_transformers_available faiss_available
            embedding_model 384;
      Done (s, Some s)
  | Some s => Done (s, Some s)
  end.

(** [EcoChatbot._get_rag_context] of [app.py]: every exception of the
    retrieval is caught and gives the empty context. *)
Definition _get_rag_context (rag_system : option RAGSystem)
    (user_input : string) (k : Z) : string :=
  match rag_system with
  | None => ""
  | Some s =>
      match retrieve encode s user_input k None None None None with
      | Done [] => ""
      | Done results => PyStr.join blank_line (map hit_doc results)
      | _ => ""
      end
  end.

(** The datasets [EcoChatbot._load_climate_datasets] loads: file, dataset
    name and text column. *)
Definition climate_datasets : list (string * string * string) :=
  [("GlobalLandTemperaturesByCountry.csv", "temperature_by_country", "text");
   ("GlobalLandTemperaturesByCity.csv", "temperature_by_city", "text");
   ("GlobalTemperatures.csv", "global_temperatures", "text");
   ("climate_headlines_sentiment.csv", "climate_headlines", "Content")].

(** [EcoChatbot._load_climate_datasets] of [app.py].  [files] gives the
    records parsed from a file of the dataset directory, [None] when the file
    does not exist or its parsing raises (which is caught and leaves the
    store as it is, like a missing file).  An exception of a load is caught and the next dataset is
    tried; a load that does not return stops everything. *)
Fixpoint load_datasets (fuel : nat) (dataset_dir : string)
    (files : string -> option (list (gmap string value)))
    (configs : list (string * string * string)) (s : RAGSystem)
  : outcome RAGSystem :=
  match configs with
  | [] => Done s
  | (file, name, text_column) :: configs' =>
      match files file with
      | None => load_datasets fuel dataset_dir files configs' s
      | Some dataset =>
          match load_from_dataset float_repr encode fuel s
                  (dataset_dir +:+ "/" +:+ file) dataset text_column None None
                  500 50 (Some name) with
          | Done s' => load_datasets fuel dataset_dir files configs' s'
          | Raised _ => load_datasets fuel dataset_dir files configs' s
          | Running => Running
          end
      end
  end.

Definition _load_climate_datasets (fuel : nat)
    (rag_system : option RAGSystem) (dataset_dir_exists : bool)
    (dataset_dir : string)
    (files : string -> option (list (gmap string value)))
  : outcome (option RAGSystem) :=
  match rag_system with
  | None => Done None
  | Some s =>
      if negb dataset_dir_exists then Done (Some s)
      else s' ← load_datasets fuel dataset_dir files climate_datasets s;
           Done (Some s')
  end.

End Callers.

(** The character [c] does not occur in [s]. *)
Definition lacks (c : ascii) (s : string) : Prop := c ∉ PyStr.chars s.

(** The fields [_create_text_from_csv_record] looks at, besides the text
    column. *)
Definition recognised_fields : list string :=
  ["text"; "Headline"; "Content"; "Country"; "AverageTemperature"; "dt";
   "AverageTemperatureUncertainty"; "LandAverageTemperature";
   "LandAndOceanAverageTemperature"].

(** The store after loading the one-record dataset [{"text": "hello"}] into
    an empty store whose embedder is [length_encoder]. *)
Definition hello_store : RAGSystem :=
  {| embedding_model_name := "model";
     dimension := 1;
     index := {| d := 1; xb := [[5%Q]] |};
     documents := ["hello"];
     metadata := [{[ "dataset_name" := VStr "default";
                     "person_id" := VStr "student_1" ]}] |}.

(** Closes an equation between closed terms by evaluation, without
    displaying the value: the comparison is made when the proof is checked. *)
Ltac by_evaluation :=
  lazymatch goal with
  | |- _ = ?r => vm_cast_no_check (@eq_refl _ r)
  end.

(** Settles a [last_terminator_at] goal on a literal window. *)
Ltac scan_window j Hj Hc :=
  first
    [ discriminate Hc
    | destruct j as [|j];
      [ first [ lia
              | injection Hc as <-; intros [Ht | Ht]; cbv in Ht; discriminate Ht ]
      | simpl in Hc; scan_window j Hj Hc ] ].

Ltac last_terminator c :=
  split; [lia |];
  split; [exists c; split; [reflexivity | unfold terminator, newline; auto] |];
  let j := fresh "j" in
  let Hj := fresh "Hj" in
  let Hc := fresh "Hc" in
  intros j ? Hj Hc;
  match type of Hc with
  | PyStr.chars ?w !! _ = _ =>
      let l := eval vm_compute in (PyStr.chars w) in
      change (PyStr.chars w) with l in Hc
  end;
  scan_window j Hj Hc.

(** * Properties *)

(** ** Strings *)

Lemma length_str (l : list ascii) : String.length (PyStr.str l) = length l.
Proof. induction l as [|c l IH]; simpl; [done | by rewrite IH]. Qed.

Lemma chars_str (l : list ascii) : PyStr.chars (PyStr.str l) = l.
Proof. apply list_ascii_of_string_of_list_ascii. Qed.

Lemma str_chars (s : string) : PyStr.str (PyStr.chars s) = s.
Proof. apply string_of_list_ascii_of_string. Qed.

Lemma length_chars (s : string) : length (PyStr.chars s) = String.length s.
Proof. rewrite <- (str_chars s) at 2. by rewrite length_str. Qed.

Lemma len_nonneg (s : string) : 0 <= PyStr.len s.
Proof. unfold PyStr.len. lia. Qed.

Lemma len_empty (s : string) : PyStr.len s = 0 -> s = "".
Proof. unfold PyStr.len. destruct s; simpl; [done | lia]. Qed.

Lemma clamp_range (n i : Z) : 0 <= n -> 0 <= PyStr.clamp n i <= n.
Proof. unfold PyStr.clamp. destruct (Z.ltb_spec i 0); lia. Qed.

Lemma len_slice (s : string) (a b : Z) :
  PyStr.len (PyStr.slice s a b)
  = Z.max 0 (PyStr.clamp (PyStr.len s) b - PyStr.clamp (PyStr.len s) a).
Proof.
  pose proof (len_nonneg s) as Hn.
  pose proof (clamp_range (PyStr.len s) a Hn) as Ha.
  pose proof (clamp_range (PyStr.len s) b Hn) as Hb.
  unfold PyStr.slice, PyStr.len at 1.
  rewrite length_str, length_take, length_drop, length_chars.
  fold (PyStr.len s). unfold PyStr.len in *. lia.
Qed.

(** A slice whose bounds are in order is no longer than their distance. *)
Lemma len_slice_le (s : string) (a b : Z) :
  a <= b -> PyStr.len (PyStr.slice s a b) <= b - a.
Proof.
  intros Hab. rewrite len_slice. pose proof (len_nonneg s).
  unfold PyStr.clamp.
  destruct (Z.ltb_spec a 0), (Z.ltb_spec b 0); lia.
Qed.

Lemma rfind_go_range (c : ascii) (l : list ascii) (i last : Z) :
  -1 <= last < i -> -1 <= PyStr.rfind_go c l i last < i + Z.of_nat (length l).
Proof.
  revert i last. induction l as [|x l IH]; intros i last H; simpl.
  - lia.
  - destruct (Ascii.eqb x c).
    + specialize (IH (i + 1) i). lia.
    + specialize (IH (i + 1) last). lia.
Qed.

Lemma rfind_range (s : string) (c : ascii) :
  -1 <= PyStr.rfind s c < PyStr.len s.
Proof.
  unfold PyStr.rfind, PyStr.len. rewrite <- length_chars.
  pose proof (rfind_go_range c (PyStr.chars s) 0 (-1)). lia.
Qed.

(** The result of [rfind] is the last position that holds the character. *)
Lemma rfind_go_spec (c : ascii) (l : list ascii) (i last : Z) :
  let r := PyStr.rfind_go c l i last in
  (r = last /\ forall j : nat, l !! j <> Some c)
  \/ (i <= r /\ l !! Z.to_nat (r - i) = Some c
      /\ forall j : nat, r - i < Z.of_nat j -> l !! j <> Some c).
Proof.
  revert i last. induction l as [|x l IH]; intros i last; simpl.
  - left. split; [done | by intros []].
  - destruct (Ascii.eqb_spec x c) as [->|Hne].
    + right. destruct (IH (i + 1) i) as [[Hr Hno] | (Hr & Hat & Hno)].
      * rewrite Hr. replace (i - i) with 0 by lia. simpl.
        split; [lia | split; [done |]].
        intros [|j] Hj; [lia | apply Hno].
      * split; [lia |]. split.
        -- replace (Z.to_nat (PyStr.rfind_go c l (i + 1) i - i))
             with (S (Z.to_nat (PyStr.rfind_go c l (i + 1) i - (i + 1)))) by lia.
           exact Hat.
        -- intros [|j] Hj; [lia | apply Hno; lia].
    + destruct (IH (i + 1) last) as [[Hr Hno] | (Hr & Hat & Hno)].
      * left. split; [done |]. intros [|j]; simpl; [congruence | apply Hno].
      * right. split; [lia |]. split.
        -- replace (Z.to_nat (PyStr.rfind_go c l (i + 1) last - i))
             with (S (Z.to_nat (PyStr.rfind_go c l (i + 1) last - (i + 1)))) by lia.
           exact Hat.
        -- intros [|j] Hj; [lia | apply Hno; lia].
Qed.

Lemma rfind_spec (s : string) (c : ascii) :
  (PyStr.rfind s c = -1 /\ forall j : nat, PyStr.chars s !! j <> Some c)
  \/ (0 <= PyStr.rfind s c
      /\ PyStr.chars s !! Z.to_nat (PyStr.rfind s c) = Some c
      /\ forall j : nat, PyStr.rfind s c < Z.of_nat j -> PyStr.chars s !! j <> Some c).
Proof.
  unfold PyStr.rfind.
  destruct (rfind_go_spec c (PyStr.chars s) 0 (-1)) as [[Hr Hno] | (Hr & Hat & Hno)].
  - by left.
  - right. rewrite Z.sub_0_r in Hat. split; [done | split; [done |]].
    intros j Hj. apply Hno. lia.
Qed.

Lemma break_point_last_terminator (w : string) (i : Z) :
  last_terminator_at w i ->
  Z.max (PyStr.rfind w "."%char) (PyStr.rfind w newline) = i.
Proof.
  intros (Hi & (c & Hc & Hterm) & Hlast).
  assert (Hle : forall c', terminator c' -> PyStr.rfind w c' <= i).
  { intros c' Hc'.
    destruct (rfind_spec w c') as [[Hr _] | (Hr & Hat & _)]; [lia |].
    destruct (Z.le_gt_cases (PyStr.rfind w c') i) as [|Hgt]; [done |].
    exfalso. apply (Hlast (Z.to_nat (PyStr.rfind w c')) c'); [lia | done | done]. }
  assert (Hge : PyStr.rfind w c >= i).
  { destruct (rfind_spec w c) as [[_ Hno] | (Hr & _ & Hno)].
    - by destruct (Hno (Z.to_nat i)).
    - destruct (Z.lt_ge_cases (PyStr.rfind w c) i) as [Hlt|]; [| lia].
      destruct (Hno (Z.to_nat i)); [lia | done]. }
  pose proof (Hle "."%char (or_introl eq_refl)).
  pose proof (Hle newline (or_intror eq_refl)).
  destruct Hterm as [-> | ->]; lia.
Qed.

(** A prefix of a window is a slice of the text. *)
Lemma slice_window_prefix (text : string) (start chunk_size i : Z) :
  0 <= start -> 0 <= i ->
  i < PyStr.len (PyStr.slice text start (start + chunk_size)) ->
  PyStr.slice (PyStr.slice text start (start + chunk_size)) 0 (i + 1)
  = PyStr.slice text start (start + i + 1).
Proof.
  intros Hs Hi Hlt.
  pose proof (len_nonneg text) as Hn.
  rewrite len_slice in Hlt.
  unfold PyStr.slice at 1.
  rewrite len_slice. unfold PyStr.slice.
  rewrite chars_str. f_equal.
  unfold PyStr.clamp in *.
  repeat match goal with
         | H : context [?a <? ?b] |- _ => destruct (Z.ltb_spec a b); try lia
         | |- context [?a <? ?b] => destruct (Z.ltb_spec a b); try lia
         end.
  all: replace (Z.to_nat (Z.min 0 _)) with 0%nat by lia.
  all: rewrite drop_0, take_take; f_equal; lia.
Qed.

Lemma lstrip_head (l : list ascii) :
  match PyStr.lstrip_chars l with
  | [] => True
  | c :: _ => PyStr.isspace c = false
  end.
Proof.
  induction l as [|c l IH]; simpl; [done |].
  destruct (PyStr.isspace c) eqn:Hc; [exact IH | exact Hc].
Qed.

Lemma lstrip_suffix (l : list ascii) :
  exists pre, l = pre ++ PyStr.lstrip_chars l.
Proof.
  induction l as [|c l [pre IH]]; simpl.
  - by exists [].
  - destruct (PyStr.isspace c).
    + exists (c :: pre). simpl. by rewrite <- IH.
    + by exists [].
Qed.

(** [strip] leaves no whitespace at either end. *)
Lemma stripped_strip (s : string) : PyStr.stripped (PyStr.strip s).
Proof.
  unfold PyStr.stripped, PyStr.strip, PyStr.rstrip_chars.
  rewrite chars_str, rev_involutive.
  set (L := PyStr.lstrip_chars (PyStr.chars s)).
  split.
  - destruct (lstrip_suffix (rev L)) as [pre Hpre].
    apply (f_equal (@rev ascii)) in Hpre.
    rewrite rev_involutive, rev_app_distr in Hpre.
    pose proof (lstrip_head (PyStr.chars s)) as Hhead. fold L in Hhead.
    destruct (rev (PyStr.lstrip_chars (rev L))) as [|c r]; [done |].
    rewrite Hpre in Hhead. exact Hhead.
  - apply lstrip_head.
Qed.

(** ** The chunker *)

Lemma chunk_loop_done (fuel : nat) (text : string)
    (chunk_size chunk_overlap start : Z) (chunks : list string) :
  PyStr.len text <= start ->
  chunk_loop fuel text chunk_size chunk_overlap start chunks = Done chunks.
Proof.
  intros H. destruct fuel; simpl; destruct (Z.ltb_spec start (PyStr.len text)); done || lia.
Qed.

Lemma chunk_loop_step (fuel : nat) (text : string)
    (chunk_size chunk_overlap start : Z) (chunks : list string) :
  start < PyStr.len text ->
  chunk_loop (S fuel) text chunk_size chunk_overlap start chunks
  = chunk_loop fuel text chunk_size chunk_overlap
      (snd (chunk_body text chunk_size chunk_overlap start))
      (chunks ++ [fst (chunk_body text chunk_size chunk_overlap start)]).
Proof.
  intros H. simpl. destruct (Z.ltb_spec start (PyStr.len text)); [| lia].
  by destruct (chunk_body text chunk_size chunk_overlap start).
Qed.

(** The loop has no statement that raises. *)
Lemma chunk_loop_never_raises (fuel : nat) (text : string)
    (chunk_size chunk_overlap start : Z) (chunks : list string) (e : exn) :
  chunk_loop fuel text chunk_size chunk_overlap start chunks <> Raised e.
Proof.
  revert start chunks. induction fuel as [|fuel IH]; intros start chunks; simpl.
  - by destruct (start <? PyStr.len text).
  - destruct (start <? PyStr.len text); [| done].
    destruct (chunk_body text chunk_size chunk_overlap start). apply IH.
Qed.

(** The next offset, in the two cases of the body. *)
Lemma chunk_body_next (text : string) (chunk_size chunk_overlap start : Z) :
  let window := PyStr.slice text start (start + chunk_size) in
  let break_point :=
    Z.max (PyStr.rfind window "."%char) (PyStr.rfind window newline) in
  snd (chunk_body text chunk_size chunk_overlap start)
  = if (start + chunk_size <? PyStr.len text) && (chunk_size <? 2 * break_point)
    then start + break_point + 1 - chunk_overlap
    else start + chunk_size - chunk_overlap.
Proof.
  unfold chunk_body. simpl.
  destruct (start + chunk_size <? PyStr.len text); [| done].
  by destruct (chunk_size <? 2 * _).
Qed.

(** With an overlap of at least the chunk size the offset never grows. *)
Lemma chunk_body_no_advance (text : string) (chunk_size chunk_overlap start : Z) :
  0 <= chunk_size <= chunk_overlap ->
  snd (chunk_body text chunk_size chunk_overlap start) <= start.
Proof.
  intros H. rewrite chunk_body_next. cbv zeta.
  set (w := PyStr.slice text start (start + chunk_size)).
  pose proof (rfind_range w "."%char). pose proof (rfind_range w newline).
  assert (PyStr.len w <= chunk_size).
  { unfold w. pose proof (len_slice_le text start (start + chunk_size)). lia. }
  destruct (_ && _); lia.
Qed.

Lemma chunk_loop_stuck (fuel : nat) (text : string)
    (chunk_size chunk_overlap start : Z) (chunks : list string) :
  0 <= chunk_size <= chunk_overlap ->
  start < PyStr.len text ->
  chunk_loop fuel text chunk_size chunk_overlap start chunks = Running.
Proof.
  intros Hsz. revert start chunks.
  induction fuel as [|fuel IH]; intros start chunks Hlt.
  - simpl. by destruct (Z.ltb_spec start (PyStr.len text)); [| lia].
  - rewrite chunk_loop_step by done. apply IH.
    pose proof (chunk_body_no_advance text chunk_size chunk_overlap start Hsz). lia.
Qed.

(** With an overlap of at most half the chunk size the offset grows on every
    pass, so the loop ends within [len(text)] passes. *)
Lemma chunk_body_advance (text : string) (chunk_size chunk_overlap start : Z) :
  0 < chunk_size -> 0 <= chunk_overlap -> 2 * chunk_overlap <= chunk_size ->
  start < snd (chunk_body text chunk_size chunk_overlap start).
Proof.
  intros H1 H2 H3. rewrite chunk_body_next. cbv zeta.
  destruct (start + chunk_size <? PyStr.len text); simpl; [| lia].
  destruct (Z.ltb_spec chunk_size
              (2 * Z.max (PyStr.rfind (PyStr.slice text start (start + chunk_size)) ".")
                     (PyStr.rfind (PyStr.slice text start (start + chunk_size)) newline)));
    lia.
Qed.

Lemma chunk_loop_terminates (fuel : nat) (text : string)
    (chunk_size chunk_overlap start : Z) (chunks : list string) :
  0 < chunk_size -> 0 <= chunk_overlap -> 2 * chunk_overlap <= chunk_size ->
  PyStr.len text - start <= Z.of_nat fuel ->
  exists chunks',
    chunk_loop fuel text chunk_size chunk_overlap start chunks = Done chunks'.
Proof.
  intros H1 H2 H3. revert start chunks.
  induction fuel as [|fuel IH]; intros start chunks Hfuel.
  - exists chunks. apply chunk_loop_done. lia.
  - destruct (Z.lt_ge_cases start (PyStr.len text)) as [Hlt | Hge].
    + rewrite chunk_loop_step by done. apply IH.
      pose proof (chunk_body_advance text chunk_size chunk_overlap start H1 H2 H3).
      lia.
    + exists chunks. by apply chunk_loop_done.
Qed.

(** Every chunk the loop appends is stripped. *)
Lemma chunk_body_stripped (text : string) (chunk_size chunk_overlap start : Z) :
  PyStr.stripped (fst (chunk_body text chunk_size chunk_overlap start)).
Proof.
  unfold chunk_body.
  destruct (start + chunk_size <? PyStr.len text);
    [destruct (chunk_size <? 2 * _) |]; apply stripped_strip.
Qed.

Lemma chunk_loop_stripped (fuel : nat) (text : string)
    (chunk_size chunk_overlap start : Z) (chunks chunks' : list string) :
  Forall PyStr.stripped chunks ->
  chunk_loop fuel text chunk_size chunk_overlap start chunks = Done chunks' ->
  Forall PyStr.stripped chunks'.
Proof.
  revert start chunks. induction fuel as [|fuel IH]; intros start chunks Hall.
  - simpl. destruct (start <? PyStr.len text); [done | congruence].
  - destruct (Z.lt_ge_cases start (PyStr.len text)) as [Hlt | Hge].
    + rewrite chunk_loop_step by done. apply IH.
      apply Forall_app. split; [done |].
      constructor; [apply chunk_body_stripped | constructor].
    + rewrite chunk_loop_done by lia. congruence.
Qed.

Lemma last_terminator_lt_len (w : string) (i : Z) :
  last_terminator_at w i -> i < PyStr.len w.
Proof.
  intros (Hi & (c & Hc & _) & _).
  apply lookup_lt_Some in Hc. rewrite length_chars in Hc.
  unfold PyStr.len. lia.
Qed.

(** C4, as amended: [_chunk_text] has no check of the overlap against the
    chunk size and raises nothing.  For a non-empty text and
    [0 <= chunk_size <= chunk_overlap] the offset never moves forward, so the
    loop is still running after any number of passes. *)
Theorem chunk_text_large_overlap_runs_on (fuel : nat) (text : string)
    (chunk_size chunk_overlap : Z) :
  text <> "" -> 0 <= chunk_size -> chunk_size <= chunk_overlap ->
  _chunk_text fuel text chunk_size chunk_overlap = Running.
Proof.
  intros Hne H0 Hle. apply chunk_loop_stuck; [lia |].
  pose proof (len_nonneg text).
  destruct (Z.eq_dec (PyStr.len text) 0) as [Hz |]; [| lia].
  by apply len_empty in Hz.
Qed.

Lemma chunk_text_large_overlap_runs_on_witness :
  _chunk_text 5 "abc" 2 2 = Running.
Proof.
  apply (chunk_text_large_overlap_runs_on 5 "abc" 2 2); [discriminate | lia | lia].
Defined.

(** C4, counterexample: on ["abc"] with chunk size 2 and overlap 2 no budget
    of passes ends in a raised error. *)
Lemma chunk_text_large_overlap_no_error :
  "abc" <> "" /\ 2 >= 2
  /\ ~ (exists fuel e, _chunk_text fuel "abc" 2 2 = Raised e).
Proof.
  split; [discriminate |]. split; [lia |].
  intros (fuel & e & H). by apply chunk_loop_never_raises in H.
Qed.

Lemma stalling_loop (fuel : nat) (chunks : list string) :
  chunk_loop fuel stalling_text 10 7 0 chunks = Running.
Proof.
  revert chunks. induction fuel as [|fuel IH]; intros chunks; [reflexivity |].
  rewrite chunk_loop_step by (vm_compute; reflexivity).
  replace (snd (chunk_body stalling_text 10 7 0)) with 0 by (vm_compute; reflexivity).
  apply IH.
Qed.

(** C5, at the failing input: with chunk size 10 and overlap 7 (so
    [0 <= chunk_overlap < chunk_size]) the first window of [stalling_text] is
    cut after the full stop at index 6, the next offset is [7 - 7 = 0] again,
    and the loop is still running after any number of passes. *)
Theorem chunk_text_stalls_within_precondition :
  0 <= 7 < 10
  /\ chunk_body stalling_text 10 7 0 = ("aaaaaa.", 0)
  /\ forall fuel, _chunk_text fuel stalling_text 10 7 = Running.
Proof.
  split; [lia |]. split; [vm_compute; reflexivity |].
  intros fuel. apply stalling_loop.
Qed.

(** C6, as amended: in a window that ends before the end of the text, when
    the last full stop or newline of the window lies strictly after the
    midpoint ([chunk_size < 2 * i] for its index [i]) the chunk is cut just
    after it; when it lies at or before the midpoint the whole window is
    kept.  Every chunk appended is stripped of whitespace at both ends. *)
Theorem chunk_cut_after_last_terminator :
  (forall text chunk_size chunk_overlap start i,
      0 <= start -> start + chunk_size < PyStr.len text ->
      last_terminator_at (PyStr.slice text start (start + chunk_size)) i ->
      chunk_body text chunk_size chunk_overlap start
      = if chunk_size <? 2 * i
        then (PyStr.strip (PyStr.slice text start (start + i + 1)),
              start + i + 1 - chunk_overlap)
        else (PyStr.strip (PyStr.slice text start (start + chunk_size)),
              start + chunk_size - chunk_overlap))
  /\ (forall text chunk_size chunk_overlap start,
        PyStr.stripped (fst (chunk_body text chunk_size chunk_overlap start)))
  /\ (forall fuel text chunk_size chunk_overlap chunks,
        _chunk_text fuel text chunk_size chunk_overlap = Done chunks ->
        Forall PyStr.stripped chunks).
Proof.
  split; [| split].
  - intros text chunk_size chunk_overlap start i Hs Hend Hlast.
    pose proof (last_terminator_lt_len _ _ Hlast) as Hlt.
    pose proof Hlast as (Hi & _ & _).
    unfold chunk_body.
    destruct (Z.ltb_spec (start + chunk_size) (PyStr.len text)); [| lia].
    rewrite (break_point_last_terminator _ _ Hlast).
    destruct (chunk_size <? 2 * i); [| done].
    by rewrite slice_window_prefix.
  - apply chunk_body_stripped.
  - intros fuel text chunk_size chunk_overlap chunks.
    apply chunk_loop_stripped. constructor.
Qed.

Lemma chunk_cut_after_last_terminator_witness :
  chunk_body "aaa.bcdefg" 4 0 0 = ("aaa.", 4).
Proof.
  rewrite (proj1 chunk_cut_after_last_terminator "aaa.bcdefg" 4 0 0 3);
    [reflexivity | lia | vm_compute; reflexivity |].
  last_terminator "."%char.
Defined.

(** C6, counterexample: in ["ab.defgh"] with chunk size 4 the first window
    ["ab.d"] ends before the end of the text and its last full stop is at
    index 2, the midpoint; the chunk is the whole window, not ["ab."]. *)
Lemma chunk_not_cut_at_midpoint :
  0 + 4 < PyStr.len "ab.defgh"
  /\ last_terminator_at (PyStr.slice "ab.defgh" 0 (0 + 4)) 2
  /\ 4 * 1 <= 2 * 2
  /\ chunk_body "ab.defgh" 4 0 0 = ("ab.d", 4)
  /\ chunk_body "ab.defgh" 4 0 0 <> ("ab.", 3).
Proof.
  split; [vm_compute; reflexivity |].
  split; [last_terminator "."%char |].
  split; [lia |].
  split; [vm_compute; reflexivity | vm_compute; discriminate].
Qed.

(** ** The trend narrative *)

Lemma trend_phrased_tail (country tail phrase : string) :
  trend_phrased ("Temperature trend analysis for " +:+ country +:+ tail)
    country phrase
  <-> exists rest, tail = ": Temperatures have " +:+ phrase +:+ rest.
Proof.
  unfold trend_phrased. split; intros [rest H]; exists rest.
  - apply (inj (String.app "Temperature trend analysis for ")) in H.
    by apply (inj (String.app country)) in H.
  - by rewrite H.
Qed.

Lemma half_le_abs (q : Q) :
  ((1 # 2) <= Qabs q <-> (1 # 2) <= q \/ q <= - (1 # 2))%Q.
Proof.
  split.
  - intros H. destruct (Qlt_le_dec q 0) as [Hneg | Hpos].
    + right. rewrite Qabs_neg in H by (by apply Qlt_le_weak).
      apply Qopp_le_compat in H. by rewrite Qopp_involutive in H.
    + left. by rewrite Qabs_pos in H.
  - intros [H | H].
    + rewrite Qabs_pos; [done |]. eapply Qle_trans; [| exact H]. done.
    + rewrite Qabs_neg.
      * apply Qopp_le_compat in H. by rewrite Qopp_involutive in H.
      * eapply Qle_trans; [exact H |]. done.
Qed.

(** C7, as amended: the narrative says "remained relatively stable" exactly
    when the absolute change is below 0.5, "increased" exactly when the
    change is at least 0.5, and "decreased" exactly when it is at most -0.5.
    A change of exactly 0.5 in absolute value is not worded as stable. *)
Theorem trend_wording (country : string) (temp_change early_avg late_avg : Q)
    (first_year last_year : string) :
  let text :=
    trend_text country temp_change early_avg late_avg first_year last_year in
  (trend_phrased text country "remained relatively stable"
   <-> (Qabs temp_change < 1 # 2)%Q)
  /\ (trend_phrased text country "increased" <-> ((1 # 2) <= temp_change)%Q)
  /\ (trend_phrased text country "decreased" <-> (temp_change <= - (1 # 2))%Q).
Proof.
  cbv zeta. unfold trend_text.
  destruct (Qle_bool (1 # 2) (Qabs temp_change)) eqn:Habs; simpl negb; cbv iota.
  - apply Qle_bool_iff in Habs. pose proof Habs as Hcases.
    apply half_le_abs in Hcases.
    destruct (Qle_bool temp_change 0) eqn:Hsign; simpl negb; cbv iota;
      rewrite !trend_phrased_tail.
    + apply Qle_bool_iff in Hsign.
      assert (Hdec : (temp_change <= - (1 # 2))%Q).
      { destruct Hcases as [H | H]; [| done].
        exfalso. apply (Qle_not_lt _ _ (Qle_trans _ _ _ H Hsign)). done. }
      split; [| split].
      * split; [intros [rest H]; simplify_eq/= |].
        intros H. by apply Qlt_not_le in H.
      * split; [intros [rest H]; simplify_eq/= |].
        intros H. exfalso.
        apply (Qle_not_lt _ _ (Qle_trans _ _ _ H Hsign)). done.
      * split; [done |]. intros _. eexists. simpl. reflexivity.
    + assert (Hpos : (0 < temp_change)%Q).
      { apply Qnot_le_lt. intros H. apply Qle_bool_iff in H. congruence. }
      assert (Hinc : ((1 # 2) <= temp_change)%Q).
      { destruct Hcases as [H | H]; [done |].
        exfalso. apply (Qlt_not_le _ _ Hpos). eapply Qle_trans; [exact H | done]. }
      split; [| split].
      * split; [intros [rest H]; simplify_eq/= |].
        intros H. by apply Qlt_not_le in H.
      * split; [done |]. intros _. eexists. simpl. reflexivity.
      * split; [intros [rest H]; simplify_eq/= |].
        intros H. exfalso. apply (Qlt_not_le _ _ Hpos).
        eapply Qle_trans; [exact H | done].
  - assert (Hlt : (Qabs temp_change < 1 # 2)%Q).
    { apply Qnot_le_lt. intros H. apply Qle_bool_iff in H. congruence. }
    assert (Hno : ~ ((1 # 2) <= temp_change \/ temp_change <= - (1 # 2))%Q).
    { intros H. apply half_le_abs in H. by apply Qlt_not_le in Hlt. }
    rewrite !trend_phrased_tail.
    split; [| split].
    + split; [done |]. intros _. eexists. simpl. reflexivity.
    + split; [intros [rest H]; simplify_eq/= | intros H; destruct Hno; auto].
    + split; [intros [rest H]; simplify_eq/= | intros H; destruct Hno; auto].
Qed.

(** C7, counterexample: for a change of exactly 0.5 (early mean 10.0, late
    mean 10.5) the narrative says "increased", not "remained relatively
    stable". *)
Lemma trend_half_degree_not_stable :
  (Qabs (1 # 2) == 1 # 2)%Q
  /\ PyStr.contains "Temperatures have increased by 0.50"
       (trend_text "France" (1 # 2) 10 (21 # 2) "1900" "2000") = true
  /\ PyStr.contains "remained relatively stable"
       (trend_text "France" (1 # 2) 10 (21 # 2) "1900" "2000") = false.
Proof. split; [done |]. split; vm_compute; reflexivity. Qed.

(** ** Snapshot loading *)

(** C8, as amended: [load_index] compares nothing.  Whatever the lengths and
    dimensions of the two artifacts, it installs the index file, the
    documents, the metadata and the saved dimension as they are, and it fails
    only when the sentence-transformers package is missing. *)
Theorem load_index_installs_artifacts_unchecked (available : bool)
    (index_file : faiss_index) (data : snapshot_data) (s : RAGSystem) :
  let s' := fst (load_index available index_file data s) in
  let r := snd (load_index available index_file data s) in
  index s' = index_file
  /\ documents s' = sd_documents data
  /\ metadata s' = sd_metadata data
  /\ dimension s' = sd_dimension data
  /\ (r = Done tt <-> available = true)
  /\ (forall e, r = Raised e -> available = false).
Proof.
  unfold load_index. destruct available; simpl; repeat split; try done.
Qed.

(** C8, counterexample: an index file of dimension 3 with no vector, loaded
    with a data file of one document, no metadata and dimension 384: the
    load succeeds and leaves a store whose three structures disagree. *)
Lemma load_index_accepts_inconsistent_artifacts :
  let index_file := {| d := 3; xb := [] |} in
  let data := {| sd_documents := ["doc"]; sd_metadata := [];
                 sd_dimension := 384; sd_embedding_model := None |} in
  let s' := fst (load_index true index_file data (init "model" 384)) in
  snd (load_index true index_file data (init "model" 384)) = Done tt
  /\ length (documents s') <> ntotal (index s')
  /\ length (documents s') <> length (metadata s')
  /\ dimension s' <> d (index s').
Proof. simpl. repeat split; done. Qed.

(** ** Ingestion *)

Lemma bind_done {A B : Type} (m : outcome A) (f : A -> outcome B) (b : B) :
  m ≫= f = Done b -> exists a, m = Done a /\ f a = Done b.
Proof. destruct m as [a | e |]; simpl; [eauto | done | done]. Qed.

Lemma append_chunks_spec (meta : gmap string value) (chunks : list string)
    (acc : list string * list (gmap string value)) :
  append_chunks meta chunks acc
  = (fst acc ++ chunks, snd acc ++ replicate (length chunks) meta).
Proof.
  unfold append_chunks. revert acc.
  induction chunks as [|c chunks IH]; intros [ds ms]; simpl.
  - by rewrite !app_nil_r.
  - rewrite IH. simpl. by rewrite <- !app_assoc.
Qed.

Lemma build_documents_lengths (float_repr : Q -> string) (fuel : nat)
    (is_csv : bool) (text_column : string)
    (lesson_id_column person_id_column : option string)
    (chunk_size chunk_overlap : Z) (dataset_name : option string)
    (dataset : list (gmap string value))
    (acc r : list string * list (gmap string value)) :
  length (fst acc) = length (snd acc) ->
  build_documents float_repr fuel is_csv text_column lesson_id_column
    person_id_column chunk_size chunk_overlap dataset_name dataset acc = Done r ->
  length (fst r) = length (snd r).
Proof.
  revert acc. induction dataset as [|record dataset IH]; intros acc Hacc; simpl.
  - by intros [= <-].
  - intros H.
    apply bind_done in H as (text & _ & H).
    apply bind_done in H as (to_chunk & _ & H).
    destruct to_chunk as [txt |]; [| by eapply IH].
    apply bind_done in H as (chunks & _ & H).
    eapply IH; [| exact H].
    rewrite append_chunks_spec. simpl.
    rewrite !length_app, length_replicate. lia.
Qed.

Lemma index_add_done (ix ix' : faiss_index) (x : list (list Q)) :
  index_add ix x = Done ix' -> d ix' = d ix /\ xb ix' = xb ix ++ x.
Proof.
  unfold index_add. destruct x as [|v x]; [done |].
  destruct (forallb _ _); [| done]. by intros [= <-].
Qed.

(** What a successful [add_documents] does: the three structures grow by the
    same batch, in the same order. *)
Lemma add_documents_done (encode : string -> string -> list Q)
    (s s' : RAGSystem) (docs : list string)
    (meta : option (list (gmap string value))) :
  add_documents encode s docs meta = Done s' ->
  exists metas,
    length docs = length metas
    /\ documents s' = documents s ++ docs
    /\ metadata s' = metadata s ++ metas
    /\ xb (index s') = xb (index s) ++ map (encode (embedding_model_name s)) docs
    /\ embedding_model_name s' = embedding_model_name s.
Proof.
  unfold add_documents.
  set (metas := match meta with
                | Some m => m
                | None => replicate (length docs) ∅
                end).
  destruct (Nat.eqb_spec (length docs) (length metas)) as [Hlen |]; [| done].
  simpl. intros H. apply bind_done in H as (ix & Hix & [= <-]).
  apply index_add_done in Hix as [_ Hxb].
  exists metas. by repeat split.
Qed.

Lemma ingest_done (float_repr : Q -> string)
    (encode : string -> string -> list Q) (fuel : nat)
    (s s' : RAGSystem) (c : ingestion) :
  ingest float_repr encode fuel s c = Done s' ->
  exists docs metas,
    length docs = length metas
    /\ documents s' = documents s ++ docs
    /\ metadata s' = metadata s ++ metas
    /\ xb (index s') = xb (index s) ++ map (encode (embedding_model_name s)) docs
    /\ embedding_model_name s' = embedding_model_name s.
Proof.
  destruct c as [docs meta | path dataset tc lc pc cs co dn]; simpl.
  - intros H. apply add_documents_done in H as (metas & H). by exists docs, metas.
  - unfold load_from_dataset. destruct (_ || _); [| done].
    intros H. apply bind_done in H as ([docs metadata_list] & _ & H).
    apply add_documents_done in H as (metas & H). by exists docs, metas.
Qed.





(** ** Retrieval *)

Lemma py_eq_str (meta : gmap string value) (key v : string) :
  py_eq (get meta key VNone) (VStr v) = true -> meta !! key = Some (VStr v).
Proof.
  unfold get. destruct (meta !! key) as [[] |]; simpl; try done.
  by intros ->%String.eqb_eq.
Qed.

Lemma named_filter_sound (meta : gmap string value) (key : string)
    (o : option string) :
  opt_truthy o && negb (py_eq (get meta key VNone) (VStr (default "" o))) = false ->
  forall v, o = Some v -> v <> "" -> meta !! key = Some (VStr v).
Proof.
  intros H v -> Hv. simpl in H.
  destruct (String.eqb_spec v ""); [done |]. simpl in H.
  apply py_eq_str. by destruct (py_eq _ _).
Qed.

Lemma passes_filters_sound (meta : gmap string value)
    (dataset_name lesson_id person_id : option string)
    (filter_metadata : option (gmap string value)) :
  passes_filters meta dataset_name lesson_id person_id filter_metadata = true ->
  satisfies_filters meta dataset_name lesson_id person_id filter_metadata.
Proof.
  unfold passes_filters.
  destruct (opt_truthy dataset_name && _) eqn:Hd; [done |].
  destruct (opt_truthy lesson_id && _) eqn:Hl; [done |].
  destruct (opt_truthy person_id && _) eqn:Hp; [done |].
  intros Hfm. repeat split.
  - by apply named_filter_sound.
  - by apply named_filter_sound.
  - by apply named_filter_sound.
  - intros fm key v -> Hkv. case_bool_decide as Hempty.
    + by rewrite Hempty, lookup_empty in Hkv.
    + rewrite forallb_forall in Hfm.
      apply (Hfm (key, v)). apply list_elem_of_In.
      by apply elem_of_map_to_list.
Qed.

Lemma insert_by_distance_Forall (P : Q * nat -> Prop) (c : Q * nat)
    (l : list (Q * nat)) :
  P c -> Forall P l -> Forall P (insert_by_distance c l).
Proof.
  intros Hc. induction 1 as [|c' l Hc' Hl IH]; simpl.
  - by constructor.
  - destruct (Qle_bool _ _); repeat constructor; done.
Qed.

Lemma sort_by_distance_Forall (P : Q * nat -> Prop) (l : list (Q * nat)) :
  Forall P l -> Forall P (sort_by_distance l).
Proof.
  induction 1 as [|c l Hc Hl IH]; simpl; [constructor |].
  by apply insert_by_distance_Forall.
Qed.

Lemma insert_by_distance_sorted (c : Q * nat) (l : list (Q * nat)) :
  StronglySorted closer l -> StronglySorted closer (insert_by_distance c l).
Proof.
  induction 1 as [|c' l Hl IH Hall]; simpl.
  - repeat constructor.
  - destruct (Qle_bool (fst c) (fst c')) eqn:Hle.
    + apply Qle_bool_iff in Hle. constructor; [by constructor |].
      constructor; [done |].
      eapply Forall_impl; [exact Hall |].
      intros x Hx. unfold closer in *. by eapply Qle_trans.
    + constructor; [done |].
      apply insert_by_distance_Forall; [| done].
      unfold closer. apply Qlt_le_weak, Qnot_le_lt.
      intros H. apply Qle_bool_iff in H. congruence.
Qed.

Lemma sort_by_distance_sorted (l : list (Q * nat)) :
  StronglySorted closer (sort_by_distance l).
Proof.
  induction l as [|c l IH]; simpl; [constructor |].
  by apply insert_by_distance_sorted.
Qed.

Lemma StronglySorted_take {A : Type} (R : A -> A -> Prop) (n : nat) (l : list A) :
  StronglySorted R l -> StronglySorted R (take n l).
Proof.
  intros H. revert n. induction H as [|x l Hl IH Hall]; intros [|n]; simpl;
    try constructor; [apply IH | by apply Forall_take].
Qed.

Lemma StronglySorted_filter {A : Type} (R : A -> A -> Prop) (f : A -> bool)
    (l : list A) :
  StronglySorted R l -> StronglySorted R (List.filter f l).
Proof.
  induction 1 as [|x l Hl IH Hall]; simpl; [constructor |].
  destruct (f x); [| done]. constructor; [done |].
  apply Forall_forall. intros y Hy%list_elem_of_In%filter_In.
  rewrite Forall_forall in Hall. apply Hall, list_elem_of_In, Hy.
Qed.

Lemma entries_sorted (s : RAGSystem) (candidates : list (Q * nat)) :
  StronglySorted closer candidates ->
  StronglySorted nearer (omap (entry s) candidates).
Proof.
  induction 1 as [|c l Hl IH Hall]; simpl; [constructor |].
  destruct (entry s c) as [h |] eqn:Hh; [| done].
  constructor; [done |].
  apply Forall_forall. intros h' Hh'.
  apply list_elem_of_omap in Hh' as (c' & Hc' & Hentry).
  rewrite Forall_forall in Hall. specialize (Hall c' Hc').
  unfold entry in Hh, Hentry. unfold nearer, closer in *.
  destruct (documents s !! snd c), (metadata s !! snd c); try done.
  destruct (documents s !! snd c'), (metadata s !! snd c'); try done.
  by simplify_eq/=.
Qed.

Lemma index_search_in_range (ix : faiss_index) (query : list Q) (k : Z) :
  Forall (fun c : Q * nat => (snd c < ntotal ix)%nat) (index_search ix query k).
Proof.
  unfold index_search. apply Forall_take, sort_by_distance_Forall.
  apply Forall_forall. intros c Hc.
  apply elem_of_lookup_imap_1 in Hc as (i & v & -> & Hv).
  simpl. unfold ntotal. by eapply lookup_lt_Some.
Qed.

Lemma index_search_sorted (ix : faiss_index) (query : list Q) (k : Z) :
  StronglySorted closer (index_search ix query k).
Proof. apply StronglySorted_take, sort_by_distance_sorted. Qed.

Lemma index_search_length (ix : faiss_index) (query : list Q) (k : Z) :
  (length (index_search ix query k) <= Z.to_nat k)%nat.
Proof. unfold index_search. rewrite length_take. lia. Qed.

(** The loop keeps the candidates that pass the filters, in order, until
    [k] results are collected. *)
Lemma retrieve_loop_spec (s : RAGSystem) (k : Z)
    (dataset_name lesson_id person_id : option string)
    (filter_metadata : option (gmap string value))
    (candidates : list (Q * nat)) (results : list hit) :
  Forall (fun c => is_Some (entry s c)) candidates ->
  Z.of_nat (length results) < k ->
  retrieve_loop s k dataset_name lesson_id person_id filter_metadata
    candidates results
  = Done (results
          ++ take (Z.to_nat k - length results)
               (survivors s dataset_name lesson_id person_id filter_metadata
                  candidates)).
Proof.
  unfold survivors. intros Hall. revert results.
  induction Hall as [|[distance idx] candidates [h Hh] Hall IH];
    intros results Hlt; simpl.
  - by rewrite take_nil, app_nil_r.
  - rewrite Hh. unfold entry in Hh. simpl in Hh.
    destruct (documents s !! idx) as [doc |]; [| done].
    destruct (metadata s !! idx) as [meta |]; [| done].
    injection Hh as <-. simpl.
    destruct (passes_filters meta dataset_name lesson_id person_id filter_metadata).
    + rewrite length_app. simpl.
      replace (Z.to_nat k - length results)%nat
        with (S (Z.to_nat k - (length results + 1)))%nat by lia.
      destruct (Z.leb_spec k (Z.of_nat (length results + 1))) as [Hk | Hk].
      * replace (Z.to_nat k - (length results + 1))%nat with 0%nat by lia.
        done.
      * rewrite IH by (rewrite length_app; simpl; lia).
        rewrite length_app. simpl. by rewrite <- app_assoc.
    + by apply IH.
Qed.

Lemma survivors_satisfy (s : RAGSystem)
    (dataset_name lesson_id person_id : option string)
    (filter_metadata : option (gmap string value))
    (candidates : list (Q * nat)) :
  Forall (fun h : hit =>
            satisfies_filters (snd (fst h)) dataset_name lesson_id person_id
              filter_metadata)
    (survivors s dataset_name lesson_id person_id filter_metadata candidates).
Proof.
  apply Forall_forall. intros h Hh%list_elem_of_In%filter_In.
  apply passes_filters_sound, Hh.
Qed.

(** C2: on a store whose three structures have the same size, and for a
    count [k >= 0], [retrieve] returns the first [k] of the candidates that
    pass the filters, in the order of the candidates: every returned
    metadata record satisfies every active filter, at most [k] entries are
    returned, and their distances are non-decreasing. *)
Theorem retrieve_filtered_top_k (encode : string -> string -> list Q)
    (s : RAGSystem) (query : string) (k : Z)
    (lesson_id person_id : option string)
    (filter_metadata : option (gmap string value))
    (dataset_name : option string) :
  length (documents s) = length (metadata s) ->
  length (documents s) = ntotal (index s) ->
  0 <= k ->
  exists results,
    retrieve encode s query k lesson_id person_id filter_metadata dataset_name
    = Done results
    /\ Forall (fun h : hit =>
                 satisfies_filters (snd (fst h)) dataset_name lesson_id
                   person_id filter_metadata) results
    /\ Z.of_nat (length results) <= k
    /\ StronglySorted nearer results
    /\ results
       = take (Z.to_nat k)
           (survivors s dataset_name lesson_id person_id filter_metadata
              (index_search (index s)
                 (encode (embedding_model_name s) query)
                 (search_k k dataset_name lesson_id person_id
                    (length (documents s))))).
Proof.
  intros Hmeta Hindex Hk.
  set (candidates :=
         index_search (index s) (encode (embedding_model_name s) query)
           (search_k k dataset_name lesson_id person_id (length (documents s)))).
  set (kept := survivors s dataset_name lesson_id person_id filter_metadata
                 candidates).
  assert (Hret : retrieve encode s query k lesson_id person_id filter_metadata
                   dataset_name = Done (take (Z.to_nat k) kept)).
  { unfold retrieve, _embed_text. fold candidates.
    destruct (Nat.eqb_spec (length (documents s)) 0) as [Hempty | Hne].
    - assert (candidates = []) as Hc.
      { unfold candidates, index_search. unfold ntotal in Hindex.
        rewrite Hempty in Hindex. symmetry in Hindex.
        apply nil_length_inv in Hindex. rewrite Hindex. simpl.
        by rewrite take_nil. }
      unfold kept. rewrite Hc. unfold survivors. simpl. by rewrite take_nil.
    - destruct (Z.eq_dec k 0) as [-> | Hpos].
      + assert (candidates = []) as Hc.
        { pose proof (index_search_length (index s)
                        (encode (embedding_model_name s) query)
                        (search_k 0 dataset_name lesson_id person_id
                           (length (documents s)))) as Hlen.
          fold candidates in Hlen.
          assert (search_k 0 dataset_name lesson_id person_id
                    (length (documents s)) <= 0).
          { unfold search_k. destruct (_ || _); lia. }
          destruct candidates; [done | simpl in Hlen; lia]. }
        unfold kept. rewrite Hc. unfold survivors. done.
      + rewrite retrieve_loop_spec; simpl; [by rewrite Nat.sub_0_r | | lia].
        eapply Forall_impl; [apply index_search_in_range |].
        intros [distance idx] Hidx. simpl in Hidx. unfold entry. simpl.
        destruct (lookup_lt_is_Some_2 (documents s) idx) as [doc ->]; [lia |].
        destruct (lookup_lt_is_Some_2 (metadata s) idx) as [meta ->]; [lia |].
        by eexists. }
  exists (take (Z.to_nat k) kept). split; [done |]. split.
  { apply Forall_take, survivors_satisfy. }
  split; [rewrite length_take; lia |]. split; [| done].
  apply StronglySorted_take, StronglySorted_filter, entries_sorted,
    index_search_sorted.
Qed.

Lemma retrieve_filtered_top_k_witness :
  exists results,
    retrieve length_encoder three_docs_store "x" 2 None None
      (Some (meta_country "Germany")) (Some "")
    = Done results
    /\ Forall (fun h : hit =>
                 satisfies_filters (snd (fst h)) (Some "") None None
                   (Some (meta_country "Germany"))) results
    /\ Z.of_nat (length results) <= 2
    /\ StronglySorted nearer results
    /\ results
       = take (Z.to_nat 2)
           (survivors three_docs_store (Some "") None None
              (Some (meta_country "Germany"))
              (index_search (index three_docs_store)
                 (length_encoder (embedding_model_name three_docs_store) "x")
                 (search_k 2 (Some "") None None
                    (length (documents three_docs_store))))).
Proof.
  apply (retrieve_filtered_top_k length_encoder three_docs_store "x" 2 None None
           (Some (meta_country "Germany")) (Some ""));
    [reflexivity | reflexivity | lia].
Defined.

Lemma search_k_le_documents (k : Z)
    (dataset_name lesson_id person_id : option string) (n : nat) :
  search_k k dataset_name lesson_id person_id n <= Z.of_nat n.
Proof. unfold search_k. lia. Qed.

(** C3, at the failing input: on [three_docs_store], a query with [k = 1]
    and only [filter_metadata = {"country": "Germany"}] asks the index for
    one candidate, not three; the nearest document is French, so nothing is
    returned, although the second nearest of the three candidates that
    [3 * k] would bring passes the filter. *)
Theorem retrieve_extra_filter_not_widened :
  add_documents length_encoder (init "model" 1) ["a"; "bb"; "ccc"]
    (Some [meta_country "France"; meta_country "Germany"; meta_country "Germany"])
  = Done three_docs_store
  /\ search_k 1 None None None (length (documents three_docs_store)) = 1
  /\ retrieve length_encoder three_docs_store "x" 1 None None
       (Some (meta_country "Germany")) None = Done []
  /\ retrieve_loop three_docs_store 1 None None None
       (Some (meta_country "Germany"))
       (index_search (index three_docs_store) (length_encoder "model" "x")
          (Z.min (1 * 3) 3)) []
     = Done [("bb", meta_country "Germany", 1%Q)].
Proof. repeat split; vm_compute; reflexivity. Qed.

(** ** The two-record scenario *)

Lemma slice_whole (text : string) (b : Z) :
  PyStr.len text <= b -> PyStr.slice text 0 b = text.
Proof.
  intros Hb. pose proof (len_nonneg text) as Hn.
  unfold PyStr.slice, PyStr.clamp.
  destruct (Z.ltb_spec 0 0); [lia |]. destruct (Z.ltb_spec b 0); [lia |].
  replace (Z.to_nat (Z.min 0 (PyStr.len text))) with 0%nat by lia.
  rewrite drop_0, take_ge; [apply str_chars |].
  rewrite length_chars. unfold PyStr.len in *. lia.
Qed.

(** A text that fits in one window, with room for the overlap, is one
    chunk. *)
Lemma chunk_text_short (fuel : nat) (text : string) (chunk_size chunk_overlap : Z) :
  0 < PyStr.len text -> PyStr.len text <= chunk_size - chunk_overlap ->
  PyStr.len text <= chunk_size ->
  _chunk_text (S fuel) text chunk_size chunk_overlap = Done [PyStr.strip text].
Proof.
  intros Hpos Hroom Hfit. unfold _chunk_text.
  rewrite chunk_loop_step by done.
  assert (chunk_body text chunk_size chunk_overlap 0
          = (PyStr.strip text, chunk_size - chunk_overlap)) as ->.
  { unfold chunk_body. rewrite Z.add_0_l.
    destruct (Z.ltb_spec chunk_size (PyStr.len text)); [lia |].
    by rewrite slice_whole. }
  apply chunk_loop_done. simpl. lia.
Qed.


(** A record whose text is empty is skipped. *)
Lemma build_documents_skip (float_repr : Q -> string) (fuel : nat)
    (is_csv : bool) (text_column : string)
    (lesson_id_column person_id_column : option string)
    (chunk_size chunk_overlap : Z) (dataset_name : option string)
    (record : gmap string value) (dataset : list (gmap string value))
    (acc : list string * list (gmap string value)) (text : value) :
  record_text float_repr is_csv text_column record = Done text ->
  text_to_chunk text = Done None ->
  build_documents float_repr fuel is_csv text_column lesson_id_column
    person_id_column chunk_size chunk_overlap dataset_name (record :: dataset) acc
  = build_documents float_repr fuel is_csv text_column lesson_id_column
      person_id_column chunk_size chunk_overlap dataset_name dataset acc.
Proof. intros H1 H2. simpl. rewrite H1. simpl. by rewrite H2. Qed.






(** C10, at the failing input: the text of [padded_record] is not empty
    after stripping, so the record is not skipped; its second window of 500
    characters holds only spaces, so the empty string is appended between
    ["a"] and ["b"] and is stored and indexed. *)
Theorem blank_window_stores_empty_document :
  exists s,
    load_from_dataset fraction_repr length_encoder 10 (init "model" 1)
      "notes.json" [padded_record] "text" None None 500 50 None = Done s
    /\ documents s = ["a"; ""; "b"]
    /\ xb (index s) = map (length_encoder "model") ["a"; ""; "b"]
    /\ documents s !! 1%nat = Some "".
Proof. eexists. split; [vm_compute; reflexivity |]. repeat split. Qed.

(** * Further properties of the chunker *)

Lemma chunk_loop_more_fuel (fuel extra : nat) (text : string)
    (chunk_size chunk_overlap start : Z) (chunks out : list string) :
  chunk_loop fuel text chunk_size chunk_overlap start chunks = Done out ->
  chunk_loop (fuel + extra) text chunk_size chunk_overlap start chunks = Done out.
Proof.
  revert start chunks. induction fuel as [|fuel IH]; intros start chunks.
  - simpl. destruct (Z.ltb_spec start (PyStr.len text)); [done |].
    intros [= <-]. apply chunk_loop_done. lia.
  - destruct (Z.lt_ge_cases start (PyStr.len text)) as [Hlt | Hge].
    + change (S fuel + extra)%nat with (S (fuel + extra)).
      rewrite !chunk_loop_step by done. apply IH.
    + rewrite !chunk_loop_done by lia. done.
Qed.

Lemma chunk_loop_count (fuel : nat) (text : string)
    (chunk_size chunk_overlap start : Z) (chunks out : list string) :
  0 < chunk_size -> 0 <= chunk_overlap -> 2 * chunk_overlap <= chunk_size ->
  chunk_loop fuel text chunk_size chunk_overlap start chunks = Done out ->
  (length out <= length chunks + Z.to_nat (PyStr.len text - start))%nat.
Proof.
  intros H1 H2 H3. revert start chunks.
  induction fuel as [|fuel IH]; intros start chunks.
  - simpl. destruct (Z.ltb_spec start (PyStr.len text)); [done |].
    intros [= <-]. lia.
  - destruct (Z.lt_ge_cases start (PyStr.len text)) as [Hlt | Hge].
    + rewrite chunk_loop_step by done. intros H. apply IH in H.
      rewrite length_app in H. simpl in H.
      pose proof (chunk_body_advance text chunk_size chunk_overlap start H1 H2 H3).
      lia.
    + rewrite chunk_loop_done by lia. intros [= <-]. lia.
Qed.

(** X1: with a positive chunk size and an overlap of at most half of it,
    [_chunk_text] returns within [len(text)] passes of its loop, a larger
    budget gives the same chunks, and there are at most [len(text)] chunks. *)
Theorem chunk_text_terminates_half_overlap (text : string)
    (chunk_size chunk_overlap : Z) :
  0 < chunk_size -> 0 <= chunk_overlap -> 2 * chunk_overlap <= chunk_size ->
  exists chunks,
    (forall fuel, (Z.to_nat (PyStr.len text) <= fuel)%nat ->
                  _chunk_text fuel text chunk_size chunk_overlap = Done chunks)
    /\ (length chunks <= Z.to_nat (PyStr.len text))%nat.
Proof.
  intros H1 H2 H3.
  destruct (chunk_loop_terminates (Z.to_nat (PyStr.len text)) text chunk_size
              chunk_overlap 0 [] H1 H2 H3) as [chunks Hc]; [lia |].
  exists chunks. split.
  - intros fuel Hfuel.
    replace fuel with (Z.to_nat (PyStr.len text) + (fuel - Z.to_nat (PyStr.len text)))%nat
      by lia.
    by apply chunk_loop_more_fuel.
  - apply chunk_loop_count in Hc; [| done..]. simpl in Hc.
    by rewrite Z.sub_0_r in Hc.
Qed.

Lemma chunk_text_terminates_half_overlap_witness :
  exists chunks,
    (forall fuel, (Z.to_nat (PyStr.len stalling_text) <= fuel)%nat ->
                  _chunk_text fuel stalling_text 10 5 = Done chunks)
    /\ (length chunks <= Z.to_nat (PyStr.len stalling_text))%nat.
Proof.
  apply (chunk_text_terminates_half_overlap stalling_text 10 5); lia.
Defined.

(** X2: the empty text has no chunk; a text that is not empty and fits in
    one window with room for the overlap is the single chunk
    [text.strip()]. *)
Theorem chunk_text_empty_or_short (fuel : nat) (text : string)
    (chunk_size chunk_overlap : Z) :
  _chunk_text fuel "" chunk_size chunk_overlap = Done []
  /\ (text <> "" -> 0 <= chunk_overlap ->
      PyStr.len text <= chunk_size - chunk_overlap ->
      _chunk_text (S fuel) text chunk_size chunk_overlap
      = Done [PyStr.strip text]).
Proof.
  split; [by destruct fuel |].
  intros Hne Hov Hfit. apply chunk_text_short; [| lia | lia].
  pose proof (len_nonneg text).
  destruct (Z.eq_dec (PyStr.len text) 0) as [Hz |]; [| lia].
  by apply len_empty in Hz.
Qed.

Lemma chunk_text_empty_or_short_witness :
  _chunk_text 1 "  one sentence. " 500 50 = Done ["one sentence."].
Proof.
  apply (proj2 (chunk_text_empty_or_short 0 "  one sentence. " 500 50));
    [discriminate | lia | vm_compute; discriminate].
Defined.

Lemma rfind_absent (s : string) (c : ascii) :
  c ∉ PyStr.chars s -> PyStr.rfind s c = -1.
Proof.
  intros Hnot. destruct (rfind_spec s c) as [[Hr _] | (_ & Hat & _)]; [done |].
  destruct Hnot. by eapply list_elem_of_lookup_2.
Qed.

Lemma chars_slice_subseteq (text : string) (a b : Z) :
  PyStr.chars (PyStr.slice text a b) ⊆ PyStr.chars text.
Proof.
  unfold PyStr.slice. rewrite chars_str.
  etrans; [apply subseteq_take | apply subseteq_drop].
Qed.

(** Without a full stop or a newline in the text, a pass keeps its whole
    window and moves on by [chunk_size - chunk_overlap]. *)
Lemma chunk_body_no_terminator (text : string)
    (chunk_size chunk_overlap start : Z) :
  (forall c, c ∈ PyStr.chars text -> ~ terminator c) ->
  0 <= chunk_size ->
  chunk_body text chunk_size chunk_overlap start
  = (PyStr.strip (PyStr.slice text start (start + chunk_size)),
     start + chunk_size - chunk_overlap).
Proof.
  intros Hno Hcs. unfold chunk_body.
  destruct (start + chunk_size <? PyStr.len text); [| done].
  rewrite !rfind_absent.
  - destruct (Z.ltb_spec chunk_size (2 * Z.max (-1) (-1))); [lia | done].
  - intros Hin%chars_slice_subseteq. apply (Hno _ Hin). by right.
  - intros Hin%chars_slice_subseteq. apply (Hno _ Hin). by left.
Qed.

Lemma chunk_loop_strided (fuel : nat) (text : string)
    (chunk_size chunk_overlap : Z) (j : nat) (chunks out : list string) :
  (forall c, c ∈ PyStr.chars text -> ~ terminator c) ->
  0 <= chunk_overlap < chunk_size ->
  chunk_loop fuel text chunk_size chunk_overlap
    (Z.of_nat j * (chunk_size - chunk_overlap)) chunks = Done out ->
  exists n,
    out = chunks ++ map (strided_window text chunk_size chunk_overlap) (seq j n)
    /\ PyStr.len text <= Z.of_nat (j + n) * (chunk_size - chunk_overlap)
    /\ (forall i, (j <= i < j + n)%nat ->
                  Z.of_nat i * (chunk_size - chunk_overlap) < PyStr.len text).
Proof.
  intros Hno Hsz. revert j chunks.
  induction fuel as [|fuel IH]; intros j chunks.
  - simpl. destruct (Z.ltb_spec (Z.of_nat j * (chunk_size - chunk_overlap))
                       (PyStr.len text)); [done |].
    intros [= <-]. exists 0%nat. simpl. rewrite app_nil_r, Nat.add_0_r.
    split; [done |]. split; [lia |]. intros i Hi. lia.
  - destruct (Z.lt_ge_cases (Z.of_nat j * (chunk_size - chunk_overlap))
                (PyStr.len text)) as [Hlt | Hge].
    + rewrite chunk_loop_step by done.
      rewrite chunk_body_no_terminator by (done || lia). simpl.
      replace (Z.of_nat j * (chunk_size - chunk_overlap) + chunk_size - chunk_overlap)
        with (Z.of_nat (S j) * (chunk_size - chunk_overlap)) by lia.
      intros H. apply IH in H as (n & Hout & Hcover & Hin).
      exists (S n). split.
      { rewrite Hout, <- app_assoc. done. }
      split; [by replace (j + S n)%nat with (S j + n)%nat by lia |].
      intros i Hi. destruct (Nat.eq_dec i j) as [-> |]; [done |].
      apply Hin. lia.
    + rewrite chunk_loop_done by lia. intros [= <-].
      exists 0%nat. simpl. rewrite app_nil_r, Nat.add_0_r.
      split; [done |]. split; [lia |]. intros i Hi. lia.
Qed.

(** X3: on a text without full stop or newline, and with
    [0 <= chunk_overlap < chunk_size], the chunks are the stripped windows
    that start at the multiples of [chunk_size - chunk_overlap]; there are
    as many as multiples below [len(text)], and a budget of [len(text)]
    passes ends the loop. *)
Theorem chunk_text_fixed_stride (text : string) (chunk_size chunk_overlap : Z) :
  (forall c, c ∈ PyStr.chars text -> ~ terminator c) ->
  0 <= chunk_overlap < chunk_size ->
  exists n,
    (forall fuel, (Z.to_nat (PyStr.len text) <= fuel)%nat ->
       _chunk_text fuel text chunk_size chunk_overlap
       = Done (map (strided_window text chunk_size chunk_overlap) (seq 0 n)))
    /\ PyStr.len text <= Z.of_nat n * (chunk_size - chunk_overlap)
    /\ (forall i, (i < n)%nat ->
                  Z.of_nat i * (chunk_size - chunk_overlap) < PyStr.len text).
Proof.
  intros Hno Hsz.
  assert (Hfin : forall fuel start chunks,
             PyStr.len text - start <= Z.of_nat fuel ->
             exists out, chunk_loop fuel text chunk_size chunk_overlap start chunks
                         = Done out).
  { induction fuel as [|fuel IH]; intros start chunks Hfuel.
    - exists chunks. apply chunk_loop_done. lia.
    - destruct (Z.lt_ge_cases start (PyStr.len text)) as [Hlt | Hge].
      + rewrite chunk_loop_step by done.
        rewrite chunk_body_no_terminator by (done || lia). simpl.
        apply IH. lia.
      + exists chunks. by apply chunk_loop_done. }
  destruct (Hfin (Z.to_nat (PyStr.len text)) 0 []) as [out Hout]; [lia |].
  pose proof Hout as Hshape.
  apply (chunk_loop_strided _ _ _ _ 0%nat) in Hshape as (n & -> & Hcover & Hin);
    [| done | done].
  exists n. split; [| split].
  - intros fuel Hfuel. unfold _chunk_text.
    replace fuel with (Z.to_nat (PyStr.len text) + (fuel - Z.to_nat (PyStr.len text)))%nat
      by lia.
    by apply chunk_loop_more_fuel.
  - done.
  - intros i Hi. apply Hin. lia.
Qed.

Lemma chunk_text_fixed_stride_witness :
  exists n,
    (forall fuel, (Z.to_nat (PyStr.len "abcdefghij") <= fuel)%nat ->
       _chunk_text fuel "abcdefghij" 4 1
       = Done (map (strided_window "abcdefghij" 4 1) (seq 0 n)))
    /\ PyStr.len "abcdefghij" <= Z.of_nat n * (4 - 1)
    /\ (forall i, (i < n)%nat -> Z.of_nat i * (4 - 1) < PyStr.len "abcdefghij").
Proof.
  apply (chunk_text_fixed_stride "abcdefghij" 4 1); [| lia].
  intros c Hc [-> | ->]; vm_compute in Hc;
    repeat (apply elem_of_cons in Hc as [Hc | Hc]; [discriminate Hc |]);
    by apply elem_of_nil in Hc.
Defined.

Lemma chunk_loop_Forall (P : string -> Prop) (fuel : nat) (text : string)
    (chunk_size chunk_overlap start : Z) (chunks out : list string) :
  (forall start', P (fst (chunk_body text chunk_size chunk_overlap start'))) ->
  Forall P chunks ->
  chunk_loop fuel text chunk_size chunk_overlap start chunks = Done out ->
  Forall P out.
Proof.
  intros HP. revert start chunks.
  induction fuel as [|fuel IH]; intros start chunks Hall.
  - simpl. destruct (start <? PyStr.len text); [done | congruence].
  - destruct (Z.lt_ge_cases start (PyStr.len text)) as [Hlt | Hge].
    + rewrite chunk_loop_step by done. apply IH.
      apply Forall_app. split; [done |]. constructor; [apply HP | constructor].
    + rewrite chunk_loop_done by lia. congruence.
Qed.

Lemma len_slice_le_len (s : string) (a b : Z) :
  PyStr.len (PyStr.slice s a b) <= PyStr.len s.
Proof.
  rewrite len_slice. pose proof (len_nonneg s) as Hn.
  pose proof (clamp_range (PyStr.len s) a Hn).
  pose proof (clamp_range (PyStr.len s) b Hn). lia.
Qed.

Lemma substring_of_refl (s : string) : substring_of s s.
Proof. exists [], []. by rewrite app_nil_r. Qed.

Lemma substring_of_trans (a b c : string) :
  substring_of a b -> substring_of b c -> substring_of a c.
Proof.
  intros (p1 & s1 & H1) (p2 & s2 & H2).
  exists (p2 ++ p1), (s1 ++ s2). rewrite H2, H1. by rewrite <- !app_assoc.
Qed.

Lemma substring_of_len (a b : string) :
  substring_of a b -> PyStr.len a <= PyStr.len b.
Proof.
  intros (p & s & H). apply (f_equal length) in H.
  rewrite !length_app, !length_chars in H. unfold PyStr.len. lia.
Qed.

Lemma slice_substring (s : string) (a b : Z) : substring_of (PyStr.slice s a b) s.
Proof.
  unfold PyStr.slice.
  set (lo := Z.to_nat (PyStr.clamp (PyStr.len s) a)).
  set (n := Z.to_nat (PyStr.clamp (PyStr.len s) b - PyStr.clamp (PyStr.len s) a)).
  exists (take lo (PyStr.chars s)), (drop n (drop lo (PyStr.chars s))).
  by rewrite chars_str, take_drop, take_drop.
Qed.

Lemma strip_substring (s : string) : substring_of (PyStr.strip s) s.
Proof.
  unfold PyStr.strip, PyStr.rstrip_chars. unfold substring_of.
  rewrite chars_str.
  destruct (lstrip_suffix (PyStr.chars s)) as [pre Hpre].
  set (L := PyStr.lstrip_chars (PyStr.chars s)) in *.
  destruct (lstrip_suffix (rev L)) as [pre' Hpre'].
  apply (f_equal (@rev ascii)) in Hpre'.
  rewrite rev_involutive, rev_app_distr in Hpre'.
  exists pre, (rev pre'). by rewrite <- Hpre'.
Qed.

Lemma chunk_body_substring (text : string) (chunk_size chunk_overlap start : Z) :
  substring_of (fst (chunk_body text chunk_size chunk_overlap start)) text.
Proof.
  unfold chunk_body.
  destruct (start + chunk_size <? PyStr.len text);
    [destruct (chunk_size <? 2 * _) |]; simpl;
    repeat (eapply substring_of_trans;
            [first [apply strip_substring | apply slice_substring] |]);
    apply substring_of_refl.
Qed.

Lemma chunk_body_len (text : string) (chunk_size chunk_overlap start : Z) :
  0 <= chunk_size ->
  PyStr.len (fst (chunk_body text chunk_size chunk_overlap start)) <= chunk_size.
Proof.
  intros Hcs.
  pose proof (len_slice_le text start (start + chunk_size)) as Hw.
  unfold chunk_body.
  destruct (start + chunk_size <? PyStr.len text);
    [destruct (chunk_size <? 2 * _) |]; simpl.
  - pose proof (substring_of_len _ _ (strip_substring
        (PyStr.slice (PyStr.slice text start (start + chunk_size)) 0
           (Z.max (PyStr.rfind (PyStr.slice text start (start + chunk_size)) ".")
              (PyStr.rfind (PyStr.slice text start (start + chunk_size)) newline)
            + 1)))).
    pose proof (len_slice_le_len (PyStr.slice text start (start + chunk_size)) 0
        (Z.max (PyStr.rfind (PyStr.slice text start (start + chunk_size)) ".")
           (PyStr.rfind (PyStr.slice text start (start + chunk_size)) newline)
         + 1)).
    lia.
  - pose proof (substring_of_len _ _
        (strip_substring (PyStr.slice text start (start + chunk_size)))). lia.
  - pose proof (substring_of_len _ _
        (strip_substring (PyStr.slice text start (start + chunk_size)))). lia.
Qed.

(** X4: for a chunk size that is not negative, every chunk [_chunk_text]
    returns is a run of consecutive characters of the text and has at most
    [chunk_size] characters. *)
Theorem chunks_are_bounded_substrings (fuel : nat) (text : string)
    (chunk_size chunk_overlap : Z) (chunks : list string) :
  0 <= chunk_size ->
  _chunk_text fuel text chunk_size chunk_overlap = Done chunks ->
  Forall (fun c => substring_of c text /\ PyStr.len c <= chunk_size) chunks.
Proof.
  intros Hcs. apply chunk_loop_Forall; [| constructor].
  intros start'. split; [apply chunk_body_substring | by apply chunk_body_len].
Qed.

Lemma chunks_are_bounded_substrings_witness :
  Forall (fun c => substring_of c stalling_text /\ PyStr.len c <= 10)
    ["aaaaaa."; "a.aaaaaaaa"; "aaaaaaaaa"; "a"].
Proof.
  apply (chunks_are_bounded_substrings 50 stalling_text 10 2); [lia |].
  vm_compute. reflexivity.
Defined.

(** * Further properties of the record normalizer *)

Lemma has_key_true (record : gmap string value) (key : string) :
  has_key record key = true <-> is_Some (record !! key).
Proof. unfold has_key. by rewrite bool_decide_eq_true. Qed.

Lemma has_key_false (record : gmap string value) (key : string) :
  has_key record key = false <-> record !! key = None.
Proof.
  unfold has_key. rewrite bool_decide_eq_false, eq_None_not_Some. done.
Qed.

(** X5: every field of the record other than the text column is copied into
    the metadata with its value, also when its name is one of the keys the
    loop sets itself ([dataset_name], [lesson_id], [person_id], [country]):
    the record's value wins. *)
Theorem metadata_copies_record_fields (float_repr : Q -> string)
    (text_column : string)
    (lesson_id_column person_id_column dataset_name : option string)
    (record : gmap string value) (key : string) (v : value) :
  key <> text_column ->
  record !! key = Some v ->
  make_meta float_repr text_column lesson_id_column person_id_column
    dataset_name record !! key = Some v.
Proof.
  intros Hne Hkey. unfold make_meta.
  apply lookup_union_Some_l. by rewrite lookup_delete_ne.
Qed.

Lemma metadata_copies_record_fields_witness :
  make_meta fraction_repr "text" None None (Some "temperature_by_country")
    (<["dataset_name" := VStr "mine"]> france) !! "dataset_name"
  = Some (VStr "mine").
Proof.
  apply (metadata_copies_record_fields fraction_repr "text" None None
           (Some "temperature_by_country") (<["dataset_name" := VStr "mine"]> france)
           "dataset_name" (VStr "mine")); [discriminate | reflexivity].
Defined.

Lemma metadata_reserved_keys_aux (float_repr : Q -> string)
    (text_column : string)
    (lesson_id_column person_id_column dataset_name : option string)
    (record : gmap string value) :
  is_Some (make_meta float_repr text_column lesson_id_column person_id_column
             dataset_name record !! "dataset_name")
  /\ is_Some (make_meta float_repr text_column lesson_id_column
                person_id_column dataset_name record !! "person_id").
Proof.
  unfold make_meta. split.
  - rewrite lookup_union_is_Some. right.
    repeat case_match; simplify_map_eq; try done;
      repeat (rewrite lookup_insert; case_decide; try done).
  - rewrite lookup_union_is_Some. right.
    repeat case_match; simplify_map_eq; done.
Qed.

(** X6: every metadata record has the keys [dataset_name] and [person_id].
    When the record has no field of that name, [dataset_name] is the given
    name, or ["default"] when none or an empty one is given, and [person_id]
    is the record's value in the person column, or ["student_1"] when no
    person column is given or the record lacks it. *)
Theorem metadata_reserved_keys (float_repr : Q -> string)
    (text_column : string)
    (lesson_id_column person_id_column dataset_name : option string)
    (record : gmap string value) :
  let meta := make_meta float_repr text_column lesson_id_column
                person_id_column dataset_name record in
  is_Some (meta !! "dataset_name")
  /\ is_Some (meta !! "person_id")
  /\ (record !! "dataset_name" = None ->
      meta !! "dataset_name"
      = Some (VStr (if opt_truthy dataset_name then default "" dataset_name
                    else "default")))
  /\ (record !! "person_id" = None ->
      meta !! "person_id"
      = Some (if opt_truthy person_id_column
                 && has_key record (default "" person_id_column)
              then get record (default "" person_id_column) VNone
              else VStr "student_1")).
Proof.
  cbv zeta. unfold make_meta.
  set (dn := default "" dataset_name).
  set (lcol := default "" lesson_id_column).
  set (pcol := default "" person_id_column).
  assert (Hlesson : opt_truthy lesson_id_column && has_key record lcol = true ->
                    is_Some (record !! lcol)).
  { intros [_ H]%andb_true_iff. by apply has_key_true. }
  repeat split.
  - rewrite lookup_union_is_Some. right.
    repeat case_match; simplify_map_eq; try done;
      repeat (rewrite lookup_insert; case_decide; try done).
  - rewrite lookup_union_is_Some. right.
    repeat case_match; simplify_map_eq; done.
  - intros Hnone. rewrite lookup_union_r by (by apply lookup_delete_None; right).
    destruct (opt_truthy lesson_id_column && has_key record lcol) eqn:Hl.
    + assert (lcol <> "dataset_name") by (intros ->; destruct (Hlesson eq_refl); congruence).
      repeat case_match; simplify_map_eq; done.
    + repeat case_match; simplify_map_eq; done.
  - intros Hnone. rewrite lookup_union_r by (by apply lookup_delete_None; right).
    repeat case_match; simplify_map_eq; done.
Qed.

Lemma metadata_reserved_keys_witness :
  make_meta fraction_repr "text" None None None france !! "dataset_name"
  = Some (VStr (if opt_truthy None then default "" None else "default")).
Proof.
  apply (proj1 (proj2 (proj2
           (metadata_reserved_keys fraction_repr "text" None None None france)))).
  vm_compute. reflexivity.
Defined.

Lemma chars_replace (c : ascii) (r s : string) :
  PyStr.chars (PyStr.replace c r s)
  = concat (map (fun x => if Ascii.eqb x c then PyStr.chars r else [x])
              (PyStr.chars s)).
Proof. unfold PyStr.replace. apply chars_str. Qed.

(** A character that is neither in the text nor in the replacement is not in
    the result of [replace]; the replaced character is not there either,
    unless the replacement holds it. *)
Lemma replace_absent (c x : ascii) (r s : string) :
  x ∉ PyStr.chars r -> (x = c \/ x ∉ PyStr.chars s) ->
  x ∉ PyStr.chars (PyStr.replace c r s).
Proof.
  intros Hr Hs. rewrite chars_replace.
  induction (PyStr.chars s) as [|y l IH]; simpl; [apply not_elem_of_nil |].
  rewrite elem_of_app. intros [Hin | Hin].
  - destruct (Ascii.eqb_spec y c) as [-> | Hyc]; [done |].
    apply list_elem_of_singleton in Hin as ->.
    destruct Hs as [-> | Hs]; [done |]. apply Hs. by left.
  - apply IH; [| done]. destruct Hs as [-> | Hs]; [by left | right].
    intros H. apply Hs. by right.
Qed.

(** X7: a lesson or country slug holds no space, no comma and no apostrophe;
    a headline slug holds no comma, apostrophe, double quote or hyphen and
    has at most 50 characters. *)
Theorem slugs_are_clean (s : string) :
  (lacks " " (slug s) /\ lacks "," (slug s) /\ lacks "'" (slug s))
  /\ (lacks "," (headline_slug s)
      /\ lacks "'" (headline_slug s)
      /\ lacks dquote (headline_slug s)
      /\ lacks "-" (headline_slug s)
      /\ PyStr.len (headline_slug s) <= 50).
Proof.
  assert (Hempty : forall x : ascii, x ∉ PyStr.chars "") by (intros x; apply not_elem_of_nil).
  assert (Hunder : forall x : ascii, x <> "_"%char -> x ∉ PyStr.chars "_").
  { intros x Hx Hin. apply list_elem_of_singleton in Hin. done. }
  unfold lacks. split.
  - unfold slug. repeat split.
    + apply replace_absent; [apply Hempty | right].
      apply replace_absent; [apply Hempty | right].
      apply replace_absent; [by apply Hunder | by left].
    + apply replace_absent; [apply Hempty | right].
      apply replace_absent; [apply Hempty | by left].
    + apply replace_absent; [apply Hempty | by left].
  - unfold headline_slug. repeat split.
    + intros Hin%chars_slice_subseteq. revert Hin.
      apply replace_absent; [by apply Hunder | right].
      apply replace_absent; [apply Hempty | right].
      apply replace_absent; [apply Hempty | right].
      apply replace_absent; [apply Hempty | by left].
    + intros Hin%chars_slice_subseteq. revert Hin.
      apply replace_absent; [by apply Hunder | right].
      apply replace_absent; [apply Hempty | right].
      apply replace_absent; [apply Hempty | by left].
    + intros Hin%chars_slice_subseteq. revert Hin.
      apply replace_absent; [by apply Hunder | right].
      apply replace_absent; [apply Hempty | by left].
    + intros Hin%chars_slice_subseteq. revert Hin.
      apply replace_absent; [by apply Hunder | by left].
    + match goal with
      | |- PyStr.len (PyStr.slice ?t 0 50) <= 50 =>
          pose proof (len_slice_le t 0 50)
      end. lia.
Qed.

(** X8: for a [.csv] path, a record that has neither the text column nor any
    of the fields the synthesis looks at gets the empty text and is skipped:
    the loop goes on with the next record and adds nothing. *)
Theorem unrecognised_csv_record_skipped (float_repr : Q -> string) (fuel : nat)
    (text_column : string) (lesson_id_column person_id_column : option string)
    (chunk_size chunk_overlap : Z) (dataset_name : option string)
    (record : gmap string value) (dataset : list (gmap string value))
    (acc : list string * list (gmap string value)) :
  record !! text_column = None ->
  Forall (fun key => record !! key = None) recognised_fields ->
  _create_text_from_csv_record float_repr record text_column = Done (VStr "")
  /\ build_documents float_repr fuel true text_column lesson_id_column
       person_id_column chunk_size chunk_overlap dataset_name
       (record :: dataset) acc
     = build_documents float_repr fuel true text_column lesson_id_column
         person_id_column chunk_size chunk_overlap dataset_name dataset acc.
Proof.
  intros Htc Hnone.
  assert (Htext : _create_text_from_csv_record float_repr record text_column
                  = Done (VStr "")).
  { unfold recognised_fields in Hnone.
    repeat (apply Forall_cons in Hnone as [?%has_key_false Hnone]).
    apply has_key_false in Htc.
    unfold _create_text_from_csv_record, add_temperature.
    repeat match goal with
           | H : has_key record ?k = false |- context [has_key record ?k] =>
               rewrite H; simpl
           end.
    by rewrite andb_false_r. }
  split; [done |].
  apply build_documents_skip with (text := VStr ""); [| done].
  unfold record_text. apply has_key_false in Htc. by rewrite Htc.
Qed.

Lemma unrecognised_csv_record_skipped_witness :
  _create_text_from_csv_record fraction_repr {[ "Year" := VInt 1990 ]} "text"
  = Done (VStr "")
  /\ build_documents fraction_repr 1 true "text" None None 500 50 None
       [{[ "Year" := VInt 1990 ]}] ([], [])
     = build_documents fraction_repr 1 true "text" None None 500 50 None [] ([], []).
Proof.
  apply (unrecognised_csv_record_skipped fraction_repr 1 "text" None None 500 50
           None {[ "Year" := VInt 1990 ]} [] ([], [])).
  - reflexivity.
  - unfold recognised_fields. repeat constructor.
Defined.

(** X9: for a path that does not end in [.csv], records without the text
    column are skipped whatever else they hold: a dataset made of such
    records adds no document. *)
Theorem records_without_text_column_skipped (float_repr : Q -> string)
    (fuel : nat) (text_column : string)
    (lesson_id_column person_id_column : option string)
    (chunk_size chunk_overlap : Z) (dataset_name : option string)
    (dataset : list (gmap string value))
    (acc : list string * list (gmap string value)) :
  Forall (fun record => record !! text_column = None) dataset ->
  build_documents float_repr fuel false text_column lesson_id_column
    person_id_column chunk_size chunk_overlap dataset_name dataset acc
  = Done acc.
Proof.
  induction 1 as [|record dataset Hrec _ IH]; [done |].
  rewrite build_documents_skip with (text := VStr ""); [done | | done].
  unfold record_text, get. by rewrite Hrec.
Qed.

Lemma records_without_text_column_skipped_witness :
  build_documents fraction_repr 0 false "text" None None 500 50 None
    [france; germany] ([], []) = Done ([], []).
Proof.
  apply (records_without_text_column_skipped fraction_repr 0 "text" None None
           500 50 None [france; germany] ([], [])).
  repeat constructor.
Defined.

Lemma build_documents_aborts (float_repr : Q -> string) (fuel : nat)
    (text_column : string) (lesson_id_column person_id_column : option string)
    (chunk_size chunk_overlap : Z) (dataset_name : option string)
    (dataset : list (gmap string value)) (record : gmap string value)
    (v : value) (acc r : list string * list (gmap string value)) :
  record ∈ dataset ->
  record !! text_column = Some v -> truthy v = true ->
  (forall s, v <> VStr s) ->
  build_documents float_repr fuel false text_column lesson_id_column
    person_id_column chunk_size chunk_overlap dataset_name dataset acc
  <> Done r.
Proof.
  intros Hin Hv Htruthy Hnot. revert acc.
  induction dataset as [|record' dataset IH]; intros acc;
    [by apply elem_of_nil in Hin |].
  apply elem_of_cons in Hin as [<- | Hin].
  - simpl. unfold get. rewrite Hv. simpl.
    unfold text_to_chunk. rewrite Htruthy. simpl.
    destruct v; try done. by destruct (Hnot s).
  - simpl. intros H.
    apply bind_done in H as (to_chunk & _ & H).
    destruct to_chunk as [txt |].
    + apply bind_done in H as (chunks & _ & H). by eapply IH.
    + by eapply IH.
Qed.

(** X10: for a path that does not end in [.csv], one record whose text field
    is a true object that is not a string (a number other than zero) makes
    the whole call fail: [load_from_dataset] does not return, and none of the
    dataset's records is stored. *)
Theorem non_string_text_aborts_load (float_repr : Q -> string)
    (encode : string -> string -> list Q) (fuel : nat) (s s' : RAGSystem)
    (dataset_path : string) (dataset : list (gmap string value))
    (text_column : string) (lesson_id_column person_id_column : option string)
    (chunk_size chunk_overlap : Z) (dataset_name : option string)
    (record : gmap string value) (v : value) :
  PyStr.endswith dataset_path ".csv" = false ->
  record ∈ dataset ->
  record !! text_column = Some v -> truthy v = true ->
  (forall t, v <> VStr t) ->
  load_from_dataset float_repr encode fuel s dataset_path dataset text_column
    lesson_id_column person_id_column chunk_size chunk_overlap dataset_name
  <> Done s'.
Proof.
  intros Hcsv Hin Hv Htruthy Hnot. unfold load_from_dataset. rewrite Hcsv.
  destruct (_ || _); [| done].
  intros H. apply bind_done in H as (r & Hbuild & _).
  by eapply build_documents_aborts in Hbuild.
Qed.

Lemma non_string_text_aborts_load_witness :
  load_from_dataset fraction_repr length_encoder 10 (init "model" 1)
    "notes.json" [padded_record; {[ "text" := VInt 7 ]}] "text" None None
    500 50 None
  <> Done (init "model" 1).
Proof.
  apply (non_string_text_aborts_load fraction_repr length_encoder 10
           (init "model" 1) (init "model" 1) "notes.json"
           [padded_record; {[ "text" := VInt 7 ]}] "text" None None 500 50 None
           {[ "text" := VInt 7 ]} (VInt 7));
    [reflexivity | set_solver | reflexivity | reflexivity | discriminate].
Defined.

(** * Further properties of ingestion *)

Lemma build_documents_shape (PD : string -> Prop)
    (PM : gmap string value -> Prop) (float_repr : Q -> string) (fuel : nat)
    (is_csv : bool) (text_column : string)
    (lesson_id_column person_id_column : option string)
    (chunk_size chunk_overlap : Z) (dataset_name : option string)
    (dataset : list (gmap string value))
    (acc r : list string * list (gmap string value)) :
  (forall text chunks,
      _chunk_text fuel text chunk_size chunk_overlap = Done chunks ->
      Forall PD chunks) ->
  (forall record,
      PM (make_meta float_repr text_column lesson_id_column person_id_column
            dataset_name record)) ->
  build_documents float_repr fuel is_csv text_column lesson_id_column
    person_id_column chunk_size chunk_overlap dataset_name dataset acc = Done r ->
  exists docs metas,
    r = (fst acc ++ docs, snd acc ++ metas)
    /\ length docs = length metas
    /\ Forall PD docs /\ Forall PM metas.
Proof.
  intros HPD HPM. revert acc.
  induction dataset as [|record dataset IH]; intros acc; simpl.
  - intros [= <-]. exists [], []. rewrite !app_nil_r.
    by destruct acc.
  - intros H.
    apply bind_done in H as (text & _ & H).
    apply bind_done in H as (to_chunk & _ & H).
    destruct to_chunk as [txt |]; [| by apply IH].
    apply bind_done in H as (chunks & Hchunks & H).
    apply IH in H as (docs & metas & -> & Hlen & Hd & Hm).
    rewrite append_chunks_spec. simpl.
    exists (chunks ++ docs),
      (replicate (length chunks)
         (make_meta float_repr text_column lesson_id_column person_id_column
            dataset_name record) ++ metas).
    rewrite <- !app_assoc. split; [done |].
    split; [rewrite !length_app, length_replicate; lia |].
    split.
    + apply Forall_app. split; [by eapply HPD | done].
    + apply Forall_app. split; [| done].
      apply Forall_forall. intros m Hm'%elem_of_replicate_inv. by subst.
Qed.

(** X11: a call of [load_from_dataset] that returns has appended, to the
    documents, the metadata and the index, one batch of as many documents,
    metadata records and embeddings; every new document is stripped of
    whitespace at both ends, is a piece of no more than [chunk_size]
    characters when [chunk_size >= 0], and every new metadata record has the
    keys [dataset_name] and [person_id].  The model name and the dimension
    are unchanged. *)
Theorem load_from_dataset_appends (float_repr : Q -> string)
    (encode : string -> string -> list Q) (fuel : nat) (s s' : RAGSystem)
    (dataset_path : string) (dataset : list (gmap string value))
    (text_column : string) (lesson_id_column person_id_column : option string)
    (chunk_size chunk_overlap : Z) (dataset_name : option string) :
  load_from_dataset float_repr encode fuel s dataset_path dataset text_column
    lesson_id_column person_id_column chunk_size chunk_overlap dataset_name
  = Done s' ->
  exists docs metas,
    documents s' = documents s ++ docs
    /\ metadata s' = metadata s ++ metas
    /\ xb (index s') = xb (index s) ++ map (encode (embedding_model_name s)) docs
    /\ length docs = length metas
    /\ Forall PyStr.stripped docs
    /\ (0 <= chunk_size -> Forall (fun doc => PyStr.len doc <= chunk_size) docs)
    /\ Forall (fun meta : gmap string value =>
                 is_Some (meta !! "dataset_name")
                 /\ is_Some (meta !! "person_id")) metas
    /\ embedding_model_name s' = embedding_model_name s
    /\ dimension s' = dimension s.
Proof.
  unfold load_from_dataset. destruct (_ || _); [| done].
  intros H. apply bind_done in H as ([docs metas] & Hbuild & Hadd).
  pose proof Hbuild as Hlen.
  apply (build_documents_shape
           (fun doc => PyStr.stripped doc
                       /\ (0 <= chunk_size -> PyStr.len doc <= chunk_size))
           (fun meta => is_Some (meta !! "dataset_name")
                        /\ is_Some (meta !! "person_id")))
    in Hlen as (docs' & metas' & [= -> ->] & Hl & Hd & Hm).
  - pose proof Hadd as Hdim.
    apply add_documents_done in Hadd as (metas & _ & Hdocs & Hmetas & Hxb & Hname).
    exists docs', metas'.
    assert (metas = metas') as ->.
    { unfold add_documents in Hdim.
      destruct (negb _); [done |]. simpl in Hdim.
      apply bind_done in Hdim as (ix & _ & [= <-]). simpl in Hmetas.
      by apply app_inv_head in Hmetas. }
    repeat split; try done.
    + eapply Forall_impl; [exact Hd | by intros doc [? _]].
    + intros Hcs. eapply Forall_impl; [exact Hd |]. intros doc [_ H]. by apply H.
    + unfold add_documents in Hdim.
      destruct (negb _); [done |]. simpl in Hdim.
      by apply bind_done in Hdim as (ix & _ & [= <-]).
  - intros text chunks Hchunks. apply Forall_forall. intros doc Hdoc. split.
    + assert (Forall PyStr.stripped chunks) as Hall.
      { revert Hchunks. apply chunk_loop_stripped. constructor. }
      rewrite Forall_forall in Hall. auto.
    + intros Hcs.
      assert (Forall (fun c => PyStr.len c <= chunk_size) chunks) as Hall.
      { revert Hchunks. apply chunk_loop_Forall; [| constructor].
        intros start'. by apply chunk_body_len. }
      rewrite Forall_forall in Hall. auto.
  - intros record.
    pose proof (metadata_reserved_keys_aux float_repr text_column lesson_id_column
                  person_id_column dataset_name record) as [? ?]. done.
Qed.

Lemma hello_store_loaded :
  load_from_dataset fraction_repr length_encoder 1 (init "model" 1) "notes.json"
    [{[ "text" := VStr "hello" ]}] "text" None None 500 50 None
  = Done hello_store.
Proof. by_evaluation. Qed.

Lemma load_from_dataset_appends_witness :
  exists docs metas,
    documents hello_store = documents (init "model" 1) ++ docs
    /\ metadata hello_store = metadata (init "model" 1) ++ metas
    /\ xb (index hello_store)
       = xb (index (init "model" 1))
         ++ map (length_encoder (embedding_model_name (init "model" 1))) docs
    /\ length docs = length metas
    /\ Forall PyStr.stripped docs
    /\ (0 <= 500 -> Forall (fun doc => PyStr.len doc <= 500) docs)
    /\ Forall (fun meta : gmap string value =>
                 is_Some (meta !! "dataset_name")
                 /\ is_Some (meta !! "person_id")) metas
    /\ embedding_model_name hello_store = embedding_model_name (init "model" 1)
    /\ dimension hello_store = dimension (init "model" 1).
Proof.
  apply (load_from_dataset_appends fraction_repr length_encoder 1
           (init "model" 1) hello_store "notes.json"
           [{[ "text" := VStr "hello" ]}] "text" None None 500 50 None).
  by_evaluation.
Defined.

(** X12: ingestion only appends.  After any run of ingestion calls from any
    store, the earlier documents, metadata records and index vectors are
    still there, at the same positions, and the model name, the dimension and
    the dimension of the index are unchanged. *)
Theorem ingestion_is_append_only (float_repr : Q -> string)
    (encode : string -> string -> list Q) (fuel : nat) (s : RAGSystem)
    (calls : list ingestion) :
  let s' := ingest_all float_repr encode fuel s calls in
  documents s `prefix_of` documents s'
  /\ metadata s `prefix_of` metadata s'
  /\ xb (index s) `prefix_of` xb (index s')
  /\ embedding_model_name s' = embedding_model_name s
  /\ dimension s' = dimension s
  /\ d (index s') = d (index s).
Proof.
  cbv zeta. revert s. induction calls as [|c calls IH]; intros s; simpl.
  { repeat split; done. }
  destruct (ingest float_repr encode fuel s c) as [s1 | e |] eqn:Hc;
    [| apply IH | apply IH].
  destruct (IH s1) as (Hd & Hm & Hx & Hn & Hdim & Hix).
  assert (documents s `prefix_of` documents s1
          /\ metadata s `prefix_of` metadata s1
          /\ xb (index s) `prefix_of` xb (index s1)
          /\ embedding_model_name s1 = embedding_model_name s
          /\ dimension s1 = dimension s
          /\ d (index s1) = d (index s)) as (Hd1 & Hm1 & Hx1 & Hn1 & Hdim1 & Hix1).
  { assert (forall docs meta,
               add_documents encode s docs meta = Done s1 ->
               dimension s1 = dimension s /\ d (index s1) = d (index s)) as Hadd.
    { intros docs meta H. unfold add_documents in H.
      destruct (negb _); [done |]. simpl in H.
      apply bind_done in H as (ix & Hix' & [= <-]).
      apply index_add_done in Hix' as [? _]. done. }
    pose proof Hc as Hshape.
    apply ingest_done in Hshape as (docs & metas & _ & Hds & Hms & Hxs & Hns).
    assert (dimension s1 = dimension s /\ d (index s1) = d (index s)) as [? ?].
    { destruct c as [docs' meta' | path dataset tc lc pc cs co dn]; simpl in Hc.
      - by eapply Hadd.
      - unfold load_from_dataset in Hc. destruct (_ || _); [| done].
        apply bind_done in Hc as ([docs' metas'] & _ & Hc). by eapply Hadd. }
    repeat split; try done.
    - rewrite Hds. by apply prefix_app_r.
    - rewrite Hms. by apply prefix_app_r.
    - rewrite Hxs. by apply prefix_app_r. }
  repeat split.
  - by etrans.
  - by etrans.
  - by etrans.
  - congruence.
  - congruence.
  - congruence.
Qed.

(** * Further properties of retrieval *)

(** What [retrieve] returns on a store whose structures have the same
    size. *)
Lemma retrieve_returns (encode : string -> string -> list Q)
    (s : RAGSystem) (query : string) (k : Z)
    (lesson_id person_id : option string)
    (filter_metadata : option (gmap string value))
    (dataset_name : option string) :
  length (documents s) = length (metadata s) ->
  length (documents s) = ntotal (index s) ->
  0 <= k ->
  retrieve encode s query k lesson_id person_id filter_metadata dataset_name
  = Done (take (Z.to_nat k)
            (survivors s dataset_name lesson_id person_id filter_metadata
               (index_search (index s) (encode (embedding_model_name s) query)
                  (search_k k dataset_name lesson_id person_id
                     (length (documents s)))))).
Proof.
  intros Hmeta Hindex Hk.
  set (candidates :=
         index_search (index s) (encode (embedding_model_name s) query)
           (search_k k dataset_name lesson_id person_id (length (documents s)))).
  unfold retrieve, _embed_text. fold candidates.
  destruct (Nat.eqb_spec (length (documents s)) 0) as [Hempty | Hne].
  - assert (candidates = []) as ->.
    { unfold candidates, index_search. unfold ntotal in Hindex.
      rewrite Hempty in Hindex. symmetry in Hindex.
      apply nil_length_inv in Hindex. rewrite Hindex. simpl.
      by rewrite take_nil. }
    unfold survivors. simpl. by rewrite take_nil.
  - destruct (Z.eq_dec k 0) as [-> | Hpos].
    + assert (candidates = []) as ->.
      { pose proof (index_search_length (index s)
                      (encode (embedding_model_name s) query)
                      (search_k 0 dataset_name lesson_id person_id
                         (length (documents s)))) as Hlen.
        fold candidates in Hlen.
        assert (search_k 0 dataset_name lesson_id person_id
                  (length (documents s)) <= 0).
        { unfold search_k. destruct (_ || _); lia. }
        destruct candidates; [done | simpl in Hlen; lia]. }
      done.
    + rewrite retrieve_loop_spec; simpl; [by rewrite Nat.sub_0_r | | lia].
      eapply Forall_impl; [apply index_search_in_range |].
      intros [distance idx] Hidx. simpl in Hidx. unfold entry. simpl.
      destruct (lookup_lt_is_Some_2 (documents s) idx) as [doc ->]; [lia |].
      destruct (lookup_lt_is_Some_2 (metadata s) idx) as [meta ->]; [lia |].
      by eexists.
Qed.

Lemma insert_by_distance_length (c : Q * nat) (l : list (Q * nat)) :
  length (insert_by_distance c l) = S (length l).
Proof.
  induction l as [|c' l IH]; simpl; [done |].
  destruct (Qle_bool _ _); simpl; by rewrite ?IH.
Qed.

Lemma sort_by_distance_length (l : list (Q * nat)) :
  length (sort_by_distance l) = length l.
Proof.
  induction l as [|c l IH]; simpl; [done |].
  by rewrite insert_by_distance_length, IH.
Qed.



Lemma index_search_exact_length (ix : faiss_index) (query : list Q) (k : Z) :
  length (index_search ix query k) = Nat.min (Z.to_nat k) (ntotal ix).
Proof.
  unfold index_search, ntotal.
  by rewrite length_take, sort_by_distance_length, length_imap.
Qed.

Lemma entries_of_valid (s : RAGSystem) (candidates : list (Q * nat)) :
  Forall (fun c => is_Some (entry s c)) candidates ->
  Forall2 (fun c h => entry s c = Some h) candidates (omap (entry s) candidates).
Proof.
  induction 1 as [|c l [h Hh] Hall IH]; simpl; [constructor |].
  rewrite Hh. by constructor.
Qed.

Lemma candidates_valid (s : RAGSystem) (query : list Q) (k : Z) :
  length (documents s) = length (metadata s) ->
  length (documents s) = ntotal (index s) ->
  Forall (fun c => is_Some (entry s c)) (index_search (index s) query k).
Proof.
  intros Hmeta Hindex.
  eapply Forall_impl; [apply index_search_in_range |].
  intros [distance idx] Hidx. simpl in Hidx. unfold entry. simpl.
  destruct (lookup_lt_is_Some_2 (documents s) idx) as [doc ->]; [lia |].
  destruct (lookup_lt_is_Some_2 (metadata s) idx) as [meta ->]; [lia |].
  by eexists.
Qed.

Lemma survivors_unfiltered (s : RAGSystem) (candidates : list (Q * nat)) :
  survivors s None None None None candidates = omap (entry s) candidates.
Proof.
  unfold survivors. induction (omap (entry s) candidates) as [|h l IH];
    simpl; [done | by rewrite IH].
Qed.




Lemma named_filter_complete (meta : gmap string value) (key : string)
    (o : option string) :
  (forall v, o = Some v -> v <> "" -> meta !! key = Some (VStr v)) ->
  opt_truthy o && negb (py_eq (get meta key VNone) (VStr (default "" o))) = false.
Proof.
  intros H. destruct o as [v |]; [| done]. simpl.
  destruct (String.eqb_spec v "") as [-> | Hne]; [done |]. simpl.
  unfold get. rewrite (H v eq_refl Hne). simpl. by rewrite String.eqb_refl.
Qed.

(** X14: the filter test of [retrieve] is exact: a metadata record passes it
    if and only if it satisfies every active filter (a named filter that is
    [None] or empty is not active). *)
Theorem passes_filters_exact (meta : gmap string value)
    (dataset_name lesson_id person_id : option string)
    (filter_metadata : option (gmap string value)) :
  passes_filters meta dataset_name lesson_id person_id filter_metadata = true
  <-> satisfies_filters meta dataset_name lesson_id person_id filter_metadata.
Proof.
  split; [apply passes_filters_sound |].
  intros (Hd & Hl & Hp & Hfm). unfold passes_filters.
  rewrite !named_filter_complete by done.
  destruct filter_metadata as [fm |]; [| done].
  case_bool_decide; [done |].
  apply forallb_forall. intros [key v] Hin%list_elem_of_In%elem_of_map_to_list.
  by eapply Hfm.
Qed.



(** X16: loading what [save_index] wrote gives back the saved store, whatever
    store the load starts from, and a query on the reloaded store returns
    what it returned before saving. *)
Theorem save_load_round_trip (encode : string -> string -> list Q)
    (s s0 : RAGSystem) (query : string) (k : Z)
    (lesson_id person_id : option string)
    (filter_metadata : option (gmap string value))
    (dataset_name : option string) :
  let reloaded :=
    fst (load_index true (fst (save_index s)) (snd (save_index s)) s0) in
  load_index true (fst (save_index s)) (snd (save_index s)) s0 = (s, Done tt)
  /\ retrieve encode reloaded query k lesson_id person_id filter_metadata
       dataset_name
     = retrieve encode s query k lesson_id person_id filter_metadata
         dataset_name.
Proof.
  assert (load_index true (fst (save_index s)) (snd (save_index s)) s0
          = (s, Done tt)) as H by (by destruct s).
  cbv zeta. by rewrite H.
Qed.

(** X17: [get_rag_system] builds the store once.  When a call returns, the
    global holds the returned store, and every later call returns that same
    store and leaves the global as it is, whatever embedding model it asks
    for and whatever the availability flags are.  A first call returns an
    empty store for the requested model, and a failed first call leaves the
    global unset. *)
Theorem rag_system_is_built_once (model_dimension : string -> Z)
    (available faiss_available : bool) (global : option RAGSystem)
    (embedding_model : string) :
  (forall s global',
      get_rag_system model_dimension available faiss_available global
        embedding_model = Done (s, global') ->
      global' = Some s
      /\ (forall available' faiss_available' embedding_model',
             get_rag_system model_dimension available' faiss_available' global'
               embedding_model' = Done (s, global'))
      /\ (global = None ->
          s = init embedding_model (model_dimension embedding_model)))
  /\ (global = None -> available && faiss_available = false ->
      exists e, get_rag_system model_dimension available faiss_available global
                  embedding_model = Raised e).
Proof.
  split.
  - intros s global' H. destruct global as [s1 |]; simpl in H.
    + injection H as <- <-. repeat split; done.
    + apply bind_done in H as (s1 & Hinit & [= <- <-]).
      split; [done |]. split; [done |]. intros _.
      unfold RAGSystem__init__ in Hinit.
      destruct available, faiss_available; simpl in Hinit; congruence.
  - intros -> Hflags. simpl. unfold RAGSystem__init__.
    destruct available, faiss_available; simpl in *; try done; by eexists.
Qed.

Lemma rag_system_is_built_once_witness :
  Some (init "first" 384) = Some (init "first" 384)
  /\ (forall available' faiss_available' embedding_model',
         get_rag_system (fun _ => 384) available' faiss_available'
           (Some (init "first" 384)) embedding_model'
         = Done (init "first" 384, Some (init "first" 384)))
  /\ (@None RAGSystem = None ->
      init "first" 384 = init "first" ((fun _ => 384) "first")).
Proof.
  apply (proj1 (rag_system_is_built_once (fun _ => 384) true true None "first")
           (init "first" 384) (Some (init "first" 384))).
  reflexivity.
Defined.

(** * Properties of the callers in [app.py] *)

Lemma retrieve_unfiltered_entries (encode : string -> string -> list Q)
    (s : RAGSystem) (query : string) (k : Z) :
  length (documents s) = length (metadata s) ->
  length (documents s) = ntotal (index s) ->
  0 <= k ->
  exists results,
    retrieve encode s query k None None None None = Done results
    /\ Z.of_nat (length results) = Z.min k (Z.of_nat (length (documents s)))
    /\ Forall (fun h => exists i, documents s !! i = Some (hit_doc h)) results.
Proof.
  intros Hmeta Hindex Hk.
  set (candidates :=
         index_search (index s) (encode (embedding_model_name s) query)
           (search_k k None None None (length (documents s)))).
  assert (Hvalid : Forall (fun c => is_Some (entry s c)) candidates)
    by (by apply candidates_valid).
  assert (Hlen : Z.of_nat (length (omap (entry s) candidates))
                 = Z.min k (Z.of_nat (length (documents s)))).
  { rewrite <- (Forall2_length _ _ _ (entries_of_valid s _ Hvalid)).
    unfold candidates. rewrite index_search_exact_length, <- Hindex.
    unfold search_k. simpl. lia. }
  exists (omap (entry s) candidates). split; [| split; [done |]].
  - rewrite retrieve_returns by done. fold candidates.
    rewrite survivors_unfiltered, take_ge; [done | lia].
  - apply Forall_forall. intros h Hh.
    apply list_elem_of_omap in Hh as ([distance idx] & _ & Hentry).
    unfold entry in Hentry. simpl in Hentry. exists idx.
    destruct (documents s !! idx), (metadata s !! idx); try done.
    by injection Hentry as <-.
Qed.

(** X18: [_get_rag_context] never fails.  Without a store it gives the empty
    context; with a store whose structures have the same size, and for
    [k >= 0], it gives the texts of exactly [min(k, n)] documents of the
    store, joined by a blank line. *)
Theorem rag_context_joins_top_k (encode : string -> string -> list Q)
    (user_input : string) (k : Z) :
  _get_rag_context encode None user_input k = ""
  /\ (forall s,
        length (documents s) = length (metadata s) ->
        length (documents s) = ntotal (index s) ->
        0 <= k ->
        exists docs,
          _get_rag_context encode (Some s) user_input k
          = PyStr.join blank_line docs
          /\ Z.of_nat (length docs) = Z.min k (Z.of_nat (length (documents s)))
          /\ Forall (fun doc => doc ∈ documents s) docs).
Proof.
  split; [done |]. intros s Hmeta Hindex Hk.
  destruct (retrieve_unfiltered_entries encode s user_input k Hmeta Hindex Hk)
    as (results & Hret & Hlen & Hdocs).
  exists (map hit_doc results). split; [| split].
  - unfold _get_rag_context. rewrite Hret. by destruct results.
  - by rewrite length_map.
  - apply Forall_fmap. eapply Forall_impl; [exact Hdocs |].
    intros h [i Hi]. simpl. by eapply list_elem_of_lookup_2.
Qed.

Lemma rag_context_joins_top_k_witness :
  exists docs,
    _get_rag_context length_encoder (Some three_docs_store) "xx" 2
    = PyStr.join blank_line docs
    /\ Z.of_nat (length docs)
       = Z.min 2 (Z.of_nat (length (documents three_docs_store)))
    /\ Forall (fun doc => doc ∈ documents three_docs_store) docs.
Proof.
  apply (proj2 (rag_context_joins_top_k length_encoder "xx" 2) three_docs_store);
    [reflexivity | reflexivity | lia].
Defined.



Lemma bind_raised {A B : Type} (m : outcome A) (f : A -> outcome B) (e : exn) :
  m ≫= f = Raised e -> m = Raised e \/ exists a, m = Done a /\ f a = Raised e.
Proof. destruct m as [a | e' |]; simpl; [eauto | intros [= ->]; eauto | done]. Qed.



(** * Further edge cases *)

(** X20: [add_documents] raises the [ValueError] of the length check exactly
    when a metadata list is given whose length differs from the number of
    documents.  Without a metadata list every document of a batch that is
    added gets the empty metadata, which satisfies no lesson filter that is
    not empty. *)
Theorem add_documents_metadata_rules (encode : string -> string -> list Q)
    (s : RAGSystem) (docs : list string)
    (meta : option (list (gmap string value))) :
  (add_documents encode s docs meta
   = Raised (ValueError "Documents and metadata must have the same length")
   <-> exists metas, meta = Some metas /\ length docs <> length metas)
  /\ (forall s', meta = None -> add_documents encode s docs meta = Done s' ->
        metadata s' = metadata s ++ replicate (length docs) ∅
        /\ forall m lesson, m ∈ replicate (length docs) (∅ : gmap string value) ->
             lesson <> "" ->
             ~ satisfies_filters m None (Some lesson) None None).
Proof.
  split.
  - unfold add_documents. split.
    + destruct meta as [metas |].
      * destruct (Nat.eqb_spec (length docs) (length metas)) as [Heq | Hne];
          simpl; [| by exists metas].
        intros H. apply bind_raised in H as [H | (ix & _ & H)]; [| done].
        unfold index_add in H. destruct (map _ docs); [done |].
        by destruct (forallb _ _).
      * rewrite length_replicate, Nat.eqb_refl. simpl.
        intros H. apply bind_raised in H as [H | (ix & _ & H)]; [| done].
        unfold index_add in H. destruct (map _ docs); [done |].
        by destruct (forallb _ _).
    + intros (metas & -> & Hne).
      by destruct (Nat.eqb_spec (length docs) (length metas)).
  - intros s' -> H. split.
    + unfold add_documents in H.
      rewrite length_replicate, Nat.eqb_refl in H. simpl in H.
      by apply bind_done in H as (ix & _ & [= <-]).
    + intros m lesson ->%elem_of_replicate_inv Hne (_ & Hl & _).
      specialize (Hl lesson eq_refl Hne). by rewrite lookup_empty in Hl.
Qed.

Lemma add_documents_metadata_rules_witness :
  add_documents length_encoder (init "model" 1) ["a"; "b"] (Some [∅])
  = Raised (ValueError "Documents and metadata must have the same length").
Proof.
  apply (proj1 (add_documents_metadata_rules length_encoder (init "model" 1)
                  ["a"; "b"] (Some [∅]))).
  exists [∅]. split; [reflexivity | simpl; lia].
Defined.

(** X21: a named filter given as the empty string is ignored, exactly as if
    it were not given: the same candidates are searched and the same entries
    returned. *)
Theorem empty_string_filters_ignored (encode : string -> string -> list Q)
    (s : RAGSystem) (query : string) (k : Z)
    (filter_metadata : option (gmap string value)) :
  retrieve encode s query k (Some "") (Some "") filter_metadata (Some "")
  = retrieve encode s query k None None filter_metadata None
  /\ (forall lesson_id person_id,
        retrieve encode s query k lesson_id person_id filter_metadata (Some "")
        = retrieve encode s query k lesson_id person_id filter_metadata None)
  /\ (forall person_id dataset_name,
        retrieve encode s query k (Some "") person_id filter_metadata dataset_name
        = retrieve encode s query k None person_id filter_metadata dataset_name).
Proof.
  assert (Hloop : forall dn dn' lid lid' pid pid' candidates results,
             opt_truthy dn = opt_truthy dn' ->
             (opt_truthy dn = true -> dn = dn') ->
             opt_truthy lid = opt_truthy lid' ->
             (opt_truthy lid = true -> lid = lid') ->
             opt_truthy pid = opt_truthy pid' ->
             (opt_truthy pid = true -> pid = pid') ->
             retrieve_loop s k dn lid pid filter_metadata candidates results
             = retrieve_loop s k dn' lid' pid' filter_metadata candidates results).
  { intros dn dn' lid lid' pid pid' candidates results Hd Hd' Hl Hl' Hp Hp'.
    revert results. induction candidates as [|[distance idx] candidates IH];
      intros results; simpl; [done |].
    destruct (documents s !! idx) as [doc |]; [| done].
    destruct (metadata s !! idx) as [meta |]; [| done].
    assert (passes_filters meta dn lid pid filter_metadata
            = passes_filters meta dn' lid' pid' filter_metadata) as ->.
    { unfold passes_filters. rewrite <- Hd, <- Hl, <- Hp.
      destruct (opt_truthy dn); [rewrite <- Hd' by done |];
        destruct (opt_truthy lid); [rewrite <- Hl' by done | |
                                    rewrite <- Hl' by done |];
        destruct (opt_truthy pid); try rewrite <- Hp' by done; done. }
    destruct (passes_filters _ _ _ _ _); [| apply IH].
    destruct (_ <=? _); [done | apply IH]. }
  unfold retrieve, search_k. repeat split.
  - destruct (_ =? _)%nat; [done |]. simpl. by apply Hloop.
  - intros lesson_id person_id. destruct (_ =? _)%nat; [done |]. simpl.
    by apply Hloop.
  - intros person_id dataset_name. destruct (_ =? _)%nat; [done |].
    replace (opt_truthy dataset_name || opt_truthy (Some "") || opt_truthy person_id)
      with (opt_truthy dataset_name || opt_truthy None || opt_truthy person_id)
      by done.
    by apply Hloop.
Qed.

(** X22: for a record without [text], [Headline] and [Content] fields, a
    temperature held as a string other than ["nan"] makes
    [_create_text_from_csv_record] raise a [ValueError] (the [.2f] format
    accepts numbers only); for a [.csv] path the record loop then raises and
    builds nothing. *)
Theorem text_temperature_raises (float_repr : Q -> string) (fuel : nat)
    (record : gmap string value) (temperature text_column : string)
    (lesson_id_column person_id_column : option string)
    (chunk_size chunk_overlap : Z) (dataset_name : option string)
    (dataset : list (gmap string value))
    (acc : list string * list (gmap string value)) :
  record !! "text" = None -> record !! "Headline" = None ->
  record !! "Content" = None -> record !! text_column = None ->
  record !! "AverageTemperature" = Some (VStr temperature) ->
  temperature <> "nan" ->
  exists e,
    _create_text_from_csv_record float_repr record text_column
    = Raised (ValueError e)
    /\ build_documents float_repr fuel true text_column lesson_id_column
         person_id_column chunk_size chunk_overlap dataset_name
         (record :: dataset) acc
       = Raised (ValueError e).
Proof.
  intros Ht Hh Hc Htc Htemp Hnan.
  apply has_key_false in Ht, Hh, Hc. pose proof Htc as Htc'.
  apply has_key_false in Htc'.
  assert (has_key record "AverageTemperature" = true) as Hk
    by (apply has_key_true; by rewrite Htemp).
  eexists.
  assert (_create_text_from_csv_record float_repr record text_column
          = Raised (ValueError "Unknown format code 'f' for object of type 'str'"))
    as Hraise.
  { unfold _create_text_from_csv_record, add_temperature.
    rewrite Ht, Hh, Hc, Hk. cbn [orb]. unfold get. rewrite Htemp.
    cbn [default from_option id is_none str_is_nan].
    rewrite (proj2 (String.eqb_neq _ _) Hnan). cbn [negb andb fmt_2f].
    reflexivity. }
  split; [exact Hraise |].
  simpl. unfold record_text. by rewrite Htc', Hraise.
Qed.

Lemma text_temperature_raises_witness :
  exists e,
    _create_text_from_csv_record fraction_repr
      {[ "Country" := VStr "France"; "AverageTemperature" := VStr "12.5" ]} "text"
    = Raised (ValueError e)
    /\ build_documents fraction_repr 1 true "text" None None 500 50 None
         [{[ "Country" := VStr "France"; "AverageTemperature" := VStr "12.5" ]}]
         ([], [])
       = Raised (ValueError e).
Proof.
  apply (text_temperature_raises fraction_repr 1
           {[ "Country" := VStr "France"; "AverageTemperature" := VStr "12.5" ]}
           "12.5" "text" None None 500 50 None [] ([], []));
    (reflexivity || discriminate).
Defined.

(** * Ingestion with a safe overlap always finishes *)

Lemma bind_finishes {A B : Type} (m : outcome A) (f : A -> outcome B) :
  m <> Running -> (forall a, f a <> Running) -> m ≫= f <> Running.
Proof. destruct m as [a | e |]; simpl; [by auto | done | done]. Qed.

Lemma add_temperature_finishes (record : gmap string value) (key label : string)
    (text_parts : list value) :
  add_temperature record key label text_parts <> Running.
Proof.
  unfold add_temperature. destruct (has_key record key); [| done].
  destruct (_ && _); [| done].
  by destruct (get record key VNone).
Qed.

Lemma py_join_finishes (sep : string) (parts : list value) :
  py_join sep parts <> Running.
Proof. unfold py_join. by destruct (strs_of parts). Qed.

Lemma create_text_finishes (float_repr : Q -> string)
    (record : gmap string value) (text_column : string) :
  _create_text_from_csv_record float_repr record text_column <> Running.
Proof.
  unfold _create_text_from_csv_record.
  destruct (has_key record "text"); [done |].
  destruct (_ || _).
  - match goal with |- match ?l with _ => _ end <> _ => destruct l end;
      [done | apply py_join_finishes].
  - repeat (apply bind_finishes; [apply add_temperature_finishes | intros ?]).
    destruct (_ && _); [done |].
    match goal with |- match ?l with _ => _ end <> _ => destruct l end;
      [done | apply py_join_finishes].
Qed.

Lemma record_text_finishes (float_repr : Q -> string) (is_csv : bool)
    (text_column : string) (record : gmap string value) :
  record_text float_repr is_csv text_column record <> Running.
Proof.
  unfold record_text. destruct is_csv; [| done].
  destruct (has_key record text_column); [| apply create_text_finishes].
  destruct (_ && _); [done | apply create_text_finishes].
Qed.

Lemma text_to_chunk_finishes (text : value) : text_to_chunk text <> Running.
Proof.
  unfold text_to_chunk. destruct (negb (truthy text)); [done |].
  destruct text; try done. by destruct (_ || _).
Qed.

Lemma chunk_text_settles (text : string) (chunk_size chunk_overlap : Z) :
  0 < chunk_size -> 0 <= chunk_overlap -> 2 * chunk_overlap <= chunk_size ->
  exists chunks, forall fuel, (Z.to_nat (PyStr.len text) <= fuel)%nat ->
    _chunk_text fuel text chunk_size chunk_overlap = Done chunks.
Proof.
  intros H1 H2 H3.
  destruct (chunk_loop_terminates (Z.to_nat (PyStr.len text)) text chunk_size
              chunk_overlap 0 [] H1 H2 H3) as [chunks Hc]; [lia |].
  exists chunks. intros fuel Hfuel.
  replace fuel with (Z.to_nat (PyStr.len text) + (fuel - Z.to_nat (PyStr.len text)))%nat
    by lia.
  by apply chunk_loop_more_fuel.
Qed.

Lemma build_documents_settles (float_repr : Q -> string) (is_csv : bool)
    (text_column : string) (lesson_id_column person_id_column : option string)
    (chunk_size chunk_overlap : Z) (dataset_name : option string)
    (dataset : list (gmap string value)) :
  0 < chunk_size -> 0 <= chunk_overlap -> 2 * chunk_overlap <= chunk_size ->
  exists fuel0, forall acc, exists r,
    r <> Running
    /\ forall fuel, (fuel0 <= fuel)%nat ->
         build_documents float_repr fuel is_csv text_column lesson_id_column
           person_id_column chunk_size chunk_overlap dataset_name dataset acc
         = r.
Proof.
  intros H1 H2 H3. induction dataset as [|record dataset [fuel1 IH]].
  - exists 0%nat. intros acc. by exists (Done acc).
  - pose proof (record_text_finishes float_repr is_csv text_column record) as Hrt.
    destruct (record_text float_repr is_csv text_column record)
      as [text | e |] eqn:Ht; [| | done].
    + pose proof (text_to_chunk_finishes text) as Htc.
      destruct (text_to_chunk text) as [[t |] | e |] eqn:Hc; [| | | done].
      * destruct (chunk_text_settles t chunk_size chunk_overlap H1 H2 H3)
          as [chunks Hchunks].
        exists (Nat.max (Z.to_nat (PyStr.len t)) fuel1). intros acc.
        destruct (IH (append_chunks
                        (make_meta float_repr text_column lesson_id_column
                           person_id_column dataset_name record) chunks acc))
          as (r & Hr & Hfuel).
        exists r. split; [done |]. intros fuel Hge.
        simpl. rewrite Ht. simpl. rewrite Hc. simpl.
        rewrite Hchunks by lia. simpl. apply Hfuel. lia.
      * exists fuel1. intros acc. destruct (IH acc) as (r & Hr & Hfuel).
        exists r. split; [done |]. intros fuel Hge.
        simpl. rewrite Ht. simpl. rewrite Hc. simpl. by apply Hfuel.
      * exists 0%nat. intros acc. exists (Raised e). split; [done |].
        intros fuel _. simpl. rewrite Ht. simpl. by rewrite Hc.
    + exists 0%nat. intros acc. exists (Raised e). split; [done |].
      intros fuel _. simpl. by rewrite Ht.
Qed.

Lemma add_documents_finishes (encode : string -> string -> list Q)
    (s : RAGSystem) (docs : list string)
    (meta : option (list (gmap string value))) :
  add_documents encode s docs meta <> Running.
Proof.
  unfold add_documents. destruct (negb _); [done |].
  apply bind_finishes; [| done].
  unfold index_add. destruct (map _ docs); [done |]. by destruct (forallb _ _).
Qed.

Lemma load_from_dataset_settles (float_repr : Q -> string)
    (encode : string -> string -> list Q) (dataset_path : string)
    (dataset : list (gmap string value)) (text_column : string)
    (lesson_id_column person_id_column : option string)
    (chunk_size chunk_overlap : Z) (dataset_name : option string) :
  0 < chunk_size -> 0 <= chunk_overlap -> 2 * chunk_overlap <= chunk_size ->
  exists fuel0, forall s, exists r,
    r <> Running
    /\ forall fuel, (fuel0 <= fuel)%nat ->
         load_from_dataset float_repr encode fuel s dataset_path dataset
           text_column lesson_id_column person_id_column chunk_size
           chunk_overlap dataset_name
         = r.
Proof.
  intros H1 H2 H3. unfold load_from_dataset.
  destruct (_ || _);
    [| exists 0%nat; intros s;
       by exists (Raised (ValueError ("Unsupported file format: " +:+ dataset_path)))].
  destruct (build_documents_settles float_repr
              (PyStr.endswith dataset_path ".csv") text_column lesson_id_column
              person_id_column chunk_size chunk_overlap dataset_name dataset
              H1 H2 H3) as [fuel0 Hb].
  exists fuel0. intros s. destruct (Hb ([], [])) as (r & Hr & Hfuel).
  exists (r ≫= λ '(docs, metadata_list),
            add_documents encode s docs (Some metadata_list)).
  split.
  - apply bind_finishes; [done |]. intros [docs metas].
    apply add_documents_finishes.
  - intros fuel Hge. by rewrite Hfuel.
Qed.

Lemma load_datasets_settles (float_repr : Q -> string)
    (encode : string -> string -> list Q) (dataset_dir : string)
    (files : string -> option (list (gmap string value)))
    (configs : list (string * string * string)) :
  exists fuel0, forall s, exists s',
    forall fuel, (fuel0 <= fuel)%nat ->
      load_datasets encode float_repr fuel dataset_dir files configs s = Done s'.
Proof.
  induction configs as [|[[file name] text_column] configs [fuel1 IH]].
  - exists 0%nat. intros s. by exists s.
  - destruct (files file) as [dataset |] eqn:Hfile.
    + destruct (load_from_dataset_settles float_repr encode
                  (dataset_dir +:+ "/" +:+ file) dataset text_column None None
                  500 50 (Some name)) as [fuel0 Hl]; [lia.. |].
      exists (Nat.max fuel0 fuel1). intros s.
      destruct (Hl s) as (r & Hr & Hfuel).
      destruct r as [s1 | e |]; [| | done].
      * destruct (IH s1) as [s' Hs']. exists s'. intros fuel Hge.
        simpl. rewrite Hfile, Hfuel by lia. apply Hs'. lia.
      * destruct (IH s) as [s' Hs']. exists s'. intros fuel Hge.
        simpl. rewrite Hfile, Hfuel by lia. apply Hs'. lia.
    + exists fuel1. intros s. destruct (IH s) as [s' Hs']. exists s'.
      intros fuel Hge. simpl. rewrite Hfile. by apply Hs'.
Qed.

(** X23: with a positive chunk size and an overlap of at most half of it,
    [load_from_dataset] always finishes: there is a number of loop passes,
    depending on the records only, within which every chunking loop of the
    call has ended, and the call then returns the new store or raises, with
    the same result for any larger budget. *)
Theorem load_from_dataset_finishes (float_repr : Q -> string)
    (encode : string -> string -> list Q) (dataset_path : string)
    (dataset : list (gmap string value)) (text_column : string)
    (lesson_id_column person_id_column : option string)
    (chunk_size chunk_overlap : Z) (dataset_name : option string) :
  0 < chunk_size -> 0 <= chunk_overlap -> 2 * chunk_overlap <= chunk_size ->
  exists fuel0, forall s,
    (exists s', forall fuel, (fuel0 <= fuel)%nat ->
       load_from_dataset float_repr encode fuel s dataset_path dataset
         text_column lesson_id_column person_id_column chunk_size
         chunk_overlap dataset_name = Done s')
    \/ (exists e, forall fuel, (fuel0 <= fuel)%nat ->
          load_from_dataset float_repr encode fuel s dataset_path dataset
            text_column lesson_id_column person_id_column chunk_size
            chunk_overlap dataset_name = Raised e).
Proof.
  intros H1 H2 H3.
  destruct (load_from_dataset_settles float_repr encode dataset_path dataset
              text_column lesson_id_column person_id_column chunk_size
              chunk_overlap dataset_name H1 H2 H3) as [fuel0 Hl].
  exists fuel0. intros s. destruct (Hl s) as (r & Hr & Hfuel).
  destruct r as [s' | e |]; [left; by exists s' | right; by exists e | done].
Qed.

Lemma load_from_dataset_finishes_witness :
  exists fuel0, forall s,
    (exists s', forall fuel, (fuel0 <= fuel)%nat ->
       load_from_dataset fraction_repr length_encoder fuel s "data.json"
         [{[ "text" := VStr "hello" ]}] "text" None None 500 50 None = Done s')
    \/ (exists e, forall fuel, (fuel0 <= fuel)%nat ->
          load_from_dataset fraction_repr length_encoder fuel s "data.json"
            [{[ "text" := VStr "hello" ]}] "text" None None 500 50 None
          = Raised e).
Proof.
  apply (load_from_dataset_finishes fraction_repr length_encoder "data.json"
           [{[ "text" := VStr "hello" ]}] "text" None None 500 50 None); lia.
Defined.

(** X24: [_load_climate_datasets] always returns.  It chunks with the default
    size 500 and overlap 50, so every chunking loop ends: whatever the files
    hold, there is a number of loop passes within which the call has returned
    a store, the same one for any larger budget. *)
Theorem climate_datasets_loading_returns (float_repr : Q -> string)
    (encode : string -> string -> list Q) (dataset_dir : string)
    (files : string -> option (list (gmap string value))) :
  exists fuel0, forall rag_system dataset_dir_exists, exists r,
    forall fuel, (fuel0 <= fuel)%nat ->
      _load_climate_datasets encode float_repr fuel rag_system
        dataset_dir_exists dataset_dir files = Done r.
Proof.
  destruct (load_datasets_settles float_repr encode dataset_dir files
              climate_datasets) as [fuel0 Hl].
  exists fuel0. intros [s |] dataset_dir_exists; [| by exists None].
  unfold _load_climate_datasets. destruct dataset_dir_exists; cbn [negb].
  - destruct (Hl s) as [s' Hs']. exists (Some s'). intros fuel Hge.
    by rewrite Hs'.
  - by exists (Some s).
Qed.
